(** * morphx: a shallow embedding of [app.py]

    The Flask application is a set of request handlers over three tables of a
    hosted Postgres service ([resources], [status_updates], [upvotes]), a
    cookie session and the service's password authentication.

    Handlers are embedded as computations of a small state-and-exception
    monad [M] over a [World]: the tables, the session dictionary, the outcomes
    of the authentication service and the source of [uuid4()] draws.  Rows,
    JSON bodies and the session are Python dictionaries, embedded as
    [gmap string val]. *)

From stdpp Require Import gmap strings list sorting.
From Stdlib Require Import ZArith.

Local Open Scope string_scope.

(** ** Python values and dictionaries *)

Inductive val :=
  | VNone
  | VBool (b : bool)
  | VInt (n : Z)
  | VStr (s : string).

#[global] Instance val_eq_dec : EqDecision val.
Proof. solve_decision. Defined.

Abbreviation dict := (gmap string val).

(** Truth value of a Python object in a condition. *)
Definition truthy (v : val) : bool :=
  match v with
  | VNone => false
  | VBool b => b
  | VInt n => negb (Z.eqb n 0)
  | VStr s => negb (String.eqb s "")
  end.

Definition dict_truthy (d : dict) : bool := negb (bool_decide (d = ∅)).

Definition list_truthy {A} (l : list A) : bool :=
  match l with [] => false | _ :: _ => true end.

(** [d.get(k)]: the value, or [None] when the key is absent. *)
Definition get (d : dict) (k : string) : val := default VNone (d !! k).

(** ** Exceptions *)

Inductive exn :=
  | KeyError (k : string)            (* d[k] on a dictionary without k *)
  | BadRequestKeyError (k : string)  (* request.form[k] without k: a 400 *)
  | ClientError (msg : string).      (* from the backend client; msg is str(e) *)

Definition str (e : exn) : string :=
  match e with
  | KeyError k => "'" ++ k ++ "'"
  | BadRequestKeyError _ =>
      "400 Bad Request: The browser (or proxy) sent a request that this server could not understand."
  | ClientError msg => msg
  end.

Inductive result (A : Type) :=
  | Ok (a : A)
  | Raise (e : exn).
Arguments Ok {A} a.
Arguments Raise {A} e.

(** ** The backend: tables and authentication *)

Inductive table := t_resources | t_status_updates | t_upvotes.

Record Tables := {
  tbl_resources : list dict;
  tbl_status_updates : list dict;
  tbl_upvotes : list dict
}.

Definition rows (t : table) (db : Tables) : list dict :=
  match t with
  | t_resources => tbl_resources db
  | t_status_updates => tbl_status_updates db
  | t_upvotes => tbl_upvotes db
  end.

Definition set_rows (t : table) (l : list dict) (db : Tables) : Tables :=
  match t with
  | t_resources =>
      {| tbl_resources := l; tbl_status_updates := tbl_status_updates db;
         tbl_upvotes := tbl_upvotes db |}
  | t_status_updates =>
      {| tbl_resources := tbl_resources db; tbl_status_updates := l;
         tbl_upvotes := tbl_upvotes db |}
  | t_upvotes =>
      {| tbl_resources := tbl_resources db;
         tbl_status_updates := tbl_status_updates db; tbl_upvotes := l |}
  end.

(** What [supabase.auth.sign_in_with_password] / [sign_up] hand back: the
    object [user], of which the handlers test [user], [hasattr(user, "user")]
    and [user.user], and read [user.user.id]. *)
Record User := { user_id : string }.

Inductive AuthResponse :=
  | AuthFalsy                        (* a falsy object, such as None *)
  | AuthNoUserAttr                   (* truthy, without an attribute user *)
  | AuthUserAttr (u : option User).  (* user.user, None when there is none *)

Inductive AuthOutcome :=
  | AuthRaises (msg : string)        (* the client raises; msg is str(e) *)
  | AuthReturns (r : AuthResponse).

Record World := {
  supabase : Tables;
  auth_sign_in : string → string → AuthOutcome;  (* by email and password *)
  auth_sign_up : string → string → AuthOutcome;
  session : dict;
  uuid_source : nat → string;               (* the successive uuid4() draws *)
  uuid_drawn : nat                          (* how many were drawn so far *)
}.

Definition with_supabase (db : Tables) (w : World) : World :=
  {| supabase := db; auth_sign_in := auth_sign_in w;
     auth_sign_up := auth_sign_up w; session := session w;
     uuid_source := uuid_source w; uuid_drawn := uuid_drawn w |}.

Definition with_auth_sign_in (f : string → string → AuthOutcome) (w : World) :
    World :=
  {| supabase := supabase w; auth_sign_in := f; auth_sign_up := auth_sign_up w;
     session := session w; uuid_source := uuid_source w;
     uuid_drawn := uuid_drawn w |}.

Definition with_session (s : dict) (w : World) : World :=
  {| supabase := supabase w; auth_sign_in := auth_sign_in w;
     auth_sign_up := auth_sign_up w; session := s;
     uuid_source := uuid_source w; uuid_drawn := uuid_drawn w |}.

Definition with_uuid_drawn (n : nat) (w : World) : World :=
  {| supabase := supabase w; auth_sign_in := auth_sign_in w;
     auth_sign_up := auth_sign_up w; session := session w;
     uuid_source := uuid_source w; uuid_drawn := n |}.

(** ** The handler monad *)

Definition M (A : Type) : Type := World → result A * World.

#[global] Instance M_ret : MRet M := λ A (a : A) w, (Ok a, w).

#[global] Instance M_bind : MBind M := λ A B (f : A → M B) (m : M A) w,
  match m w with
  | (Ok a, w') => f a w'
  | (Raise e, w') => (Raise e, w')
  end.

Definition raise {A} (e : exn) : M A := λ w, (Raise e, w).

(** [try: body / except Exception as e: handler(e)].  What the body did to
    the world before it raised stays done. *)
Definition try_except {A} (body : M A) (handler : exn → M A) : M A := λ w,
  match body w with
  | (Ok a, w') => (Ok a, w')
  | (Raise e, w') => handler e w'
  end.

Definition gets {A} (f : World → A) : M A := λ w, (Ok (f w), w).
Definition modify (f : World → World) : M unit := λ w, (Ok tt, f w).

(** [d[k]] *)
Definition getitem (d : dict) (k : string) : M val :=
  match d !! k with
  | Some v => mret v
  | None => raise (KeyError k)
  end.

(** [session[k] = v] *)
Definition session_setitem (k : string) (v : val) : M unit :=
  modify (λ w, with_session (<[k := v]> (session w)) w).

(** [str(uuid4())] *)
Definition uuid4 : M string := λ w,
  (Ok (uuid_source w (uuid_drawn w)), with_uuid_drawn (S (uuid_drawn w)) w).

Fixpoint mapM {A B} (f : A → M B) (l : list A) : M (list B) :=
  match l with
  | [] => mret []
  | x :: l' => y ← f x; ys ← mapM f l'; mret (y :: ys)
  end.

(** ** The query builder of the backend client

    [supabase.table(t).select(..).eq(..).order(..).limit(..).execute()] is
    embedded as a [Query] value built left to right and run by [execute]
    against the tables.  The tables are an idealised store: a row is the
    dictionary that was inserted, a column that was never written reads as
    NULL, and a table call never fails. *)

Inductive count_method := exact.

Inductive action :=
  | Select (columns : string) (count : option count_method)
  | Insert (row : dict)
  | Update (changes : dict).

Record Query := {
  q_table : table;
  q_action : action;
  q_filters : list (string * val);      (* .eq(column, value), conjoined *)
  q_order : option (string * bool);     (* .order(column, desc=..) *)
  q_limit : option nat                  (* .limit(n) *)
}.

Record APIResponse := { data : list dict; count : option Z }.

Notation "q .> f" := (f q) (at level 45, left associativity, only parsing).

Definition select (columns : string) (cnt : option count_method) (t : table) : Query :=
  {| q_table := t; q_action := Select columns cnt; q_filters := [];
     q_order := None; q_limit := None |}.

Definition insert_ (row : dict) (t : table) : Query :=
  {| q_table := t; q_action := Insert row; q_filters := [];
     q_order := None; q_limit := None |}.

Definition update (changes : dict) (t : table) : Query :=
  {| q_table := t; q_action := Update changes; q_filters := [];
     q_order := None; q_limit := None |}.

Definition eq_ (column : string) (v : val) (q : Query) : Query :=
  {| q_table := q_table q; q_action := q_action q;
     q_filters := q_filters q ++ [(column, v)];
     q_order := q_order q; q_limit := q_limit q |}.

Definition order (column : string) (desc : bool) (q : Query) : Query :=
  {| q_table := q_table q; q_action := q_action q; q_filters := q_filters q;
     q_order := Some (column, desc); q_limit := q_limit q |}.

Definition limit (n : nat) (q : Query) : Query :=
  {| q_table := q_table q; q_action := q_action q; q_filters := q_filters q;
     q_order := q_order q; q_limit := Some n |}.

(** A row passes the filters when every filtered column holds the value. *)
Definition matches (filters : list (string * val)) (r : dict) : Prop :=
  Forall (λ f, r !! f.1 = Some f.2) filters.

#[global] Instance matches_dec filters r : Decision (matches filters r).
Proof. unfold matches. apply _. Defined.

(** [select("*")] keeps the row; [select(c)] keeps column [c] only. *)
Definition project (columns : string) (r : dict) : dict :=
  if String.eqb columns "*" then r else filter (λ kv, kv.1 = columns) r.

(** A stable insertion sort: [before y x] says that [y] has to come strictly
    before [x]; elements that need not move keep their order. *)
Fixpoint insert_sorted {A} (before : A → A → bool) (x : A) (l : list A) : list A :=
  match l with
  | [] => [x]
  | y :: l' => if before y x then y :: insert_sorted before x l' else x :: l
  end.

Definition stable_sort {A} (before : A → A → bool) (l : list A) : list A :=
  foldr (insert_sorted before) [] l.

(** The ascending order of a column; NULL sorts after every value. *)
Definition sorts_before (a b : val) : bool :=
  match a, b with
  | VNone, _ => false
  | _, VNone => true
  | VBool x, VBool y => negb x && y
  | VInt x, VInt y => Z.ltb x y
  | VStr x, VStr y => String.ltb x y
  | _, _ => false
  end.

Definition order_rows (column : string) (desc : bool) (l : list dict) : list dict :=
  stable_sort
    (λ y x, if desc then sorts_before (get x column) (get y column)
            else sorts_before (get y column) (get x column)) l.

Definition execute (q : Query) : M APIResponse := λ w,
  let db := supabase w in
  let all := rows (q_table q) db in
  let hit := filter (matches (q_filters q)) all in
  match q_action q with
  | Select columns cnt =>
      let ordered :=
        match q_order q with
        | Some (column, desc) => order_rows column desc hit
        | None => hit
        end in
      let limited :=
        match q_limit q with Some n => take n ordered | None => ordered end in
      (Ok {| data := project columns <$> limited;
             count := match cnt with
                      | Some exact => Some (Z.of_nat (length hit))
                      | None => None
                      end |}, w)
  | Insert row =>
      (Ok {| data := [row]; count := None |},
       with_supabase (set_rows (q_table q) (all ++ [row]) db) w)
  | Update changes =>
      let upd r := if decide (matches (q_filters q) r) then changes ∪ r else r in
      (Ok {| data := upd <$> hit; count := None |},
       with_supabase (set_rows (q_table q) (upd <$> all) db) w)
  end.

(** ** The aggregation function *)

Module Post.
Record t := {
  id : val;
  title : val;
  image_url : val;
  description : val;
  upvotes : Z;
  comments : Z;
  crowd : val;
  chips : val;
  queue : val
}.
End Post.

(** [status[k] if status else ''] *)
Definition status_field (status : option dict) (k : string) : M val :=
  match status with
  | Some s => if dict_truthy s then getitem s k else mret (VStr "")
  | None => mret (VStr "")
  end.

(** The body of the loop of [fetch_posts]: the Post of one resource row. *)
Definition post_of (resource : dict) : M Post.t :=
  rid ← getitem resource "id";
  status_response ←
    execute (t_status_updates .> select "*" None .> eq_ "resource_id" rid
               .> order "created_at" true .> limit 1);
  let status := head (data status_response) in
  rid' ← getitem resource "id";
  upvotes_response ←
    execute (t_upvotes .> select "id" (Some exact) .> eq_ "resource_id" rid');
  let upvotes_count :=
    match count upvotes_response with
    | Some n => n
    | None => Z.of_nat (length (data upvotes_response))
    end in
  id ← getitem resource "id";
  title ← getitem resource "name";
  let image_url := get resource "image_url" in
  description ← status_field status "status_message";
  crowd ← status_field status "crowd_level";
  chips ← status_field status "chips_available";
  queue ← status_field status "queue_length";
  mret {| Post.id := id; Post.title := title; Post.image_url := image_url;
          Post.description := description; Post.upvotes := upvotes_count;
          Post.comments := 0; Post.crowd := crowd; Post.chips := chips;
          Post.queue := queue |}.

(** [posts.sort(key=lambda x: x['upvotes'], reverse=True)]: stable, largest
    key first. *)
Definition sort_by_upvotes_desc (posts : list Post.t) : list Post.t :=
  stable_sort (λ y x, Z.ltb (Post.upvotes x) (Post.upvotes y)) posts.

Definition fetch_posts : M (list Post.t) :=
  resources_response ← execute (t_resources .> select "*" None);
  let resources := data resources_response in
  posts ← mapM post_of resources;
  mret (sort_by_upvotes_desc posts).

(** ** Requests and responses *)

Record Request := {
  method : string;
  form : gmap string string;   (* request.form *)
  json : dict                  (* request.json *)
}.

(** [request.form[k]] *)
Definition form_getitem (request : Request) (k : string) : M string :=
  match form request !! k with
  | Some v => mret v
  | None => raise (BadRequestKeyError k)
  end.

Inductive url := url_for (endpoint : string).

Inductive ctx_value :=
  | CtxVal (v : val)
  | CtxPosts (posts : list Post.t).

Inductive Response :=
  | redirect (location : url)
  | render_template (template : string) (context : list (string * ctx_value))
  | jsonify (body : dict) (status : Z).

Definition Handler : Type := Request → M Response.

(** ** Upvoting *)

Definition upvote : Handler := λ request,
  s ← gets session;
  if bool_decide (s !! "username" = None) then
    mret (jsonify {[ "error" := VStr "Login required" ]} 401)
  else
    let resource_id := get (json request) "resource_id" in
    s ← gets session;
    let user_id := get s "user_id" in
    (* Prevent double upvote *)
    result ← execute (t_upvotes .> select "*" None
                        .> eq_ "resource_id" resource_id .> eq_ "user_id" user_id);
    if list_truthy (data result) then
      mret (jsonify {[ "error" := VStr "Already upvoted" ]} 409)
    else
      uid ← uuid4;
      _ ← execute (t_upvotes .> insert_ {[ "id" := VStr uid;
                                           "resource_id" := resource_id;
                                           "user_id" := user_id ]});
      (* Return new upvote count *)
      r ← execute (t_upvotes .> select "id" (Some exact)
                     .> eq_ "resource_id" resource_id);
      let count := match count r with Some n => VInt n | None => VNone end in
      mret (jsonify {[ "success" := VBool true; "upvotes" := count ]} 200).

(** ** Decorators *)

Definition login_required (f : Handler) : Handler := λ request,
  s ← gets session;
  if bool_decide (s !! "username" = None) then
    mret (redirect (url_for "login"))
  else f request.

Definition admin_required (f : Handler) : Handler := λ request,
  s ← gets session;
  if negb (truthy (get s "is_admin")) then
    mret (redirect (url_for "index"))
  else f request.

(** ** Routes *)

Definition index : Handler := λ request,
  posts ← fetch_posts;
  s ← gets session;
  mret (render_template "index.html"
          [("posts", CtxPosts posts); ("username", CtxVal (get s "username"))]).

Definition about : Handler := λ request,
  mret (render_template "about.html" []).

(** The test [user and hasattr(user, "user") and user.user] of the login and
    register handlers: the user it lets through, if any. *)
Definition signed_user (user : AuthResponse) : option User :=
  match user with
  | AuthUserAttr (Some u) => Some u
  | _ => None
  end.

Definition sign_in_with_password (email password : string) : M AuthResponse := λ w,
  match auth_sign_in w email password with
  | AuthRaises msg => (Raise (ClientError msg), w)
  | AuthReturns r => (Ok r, w)
  end.

Definition sign_up (email password : string) : M AuthResponse := λ w,
  match auth_sign_up w email password with
  | AuthRaises msg => (Raise (ClientError msg), w)
  | AuthReturns r => (Ok r, w)
  end.

Definition login : Handler := λ request,
  if String.eqb (method request) "POST" then
    username ← form_getitem request "username";
    password ← form_getitem request "password";
    try_except
      (user ← sign_in_with_password username password;
       match signed_user user with
       | Some u =>
           _ ← session_setitem "username" (VStr username);
           _ ← session_setitem "is_admin" (VBool false);
           _ ← session_setitem "user_id" (VStr (user_id u));
           mret (redirect (url_for "profile"))
       | None =>
           mret (render_template "login.html"
                   [("error", CtxVal (VStr "Invalid credentials"))])
       end)
      (λ e, mret (render_template "login.html" [("error", CtxVal (VStr (str e)))]))
  else mret (render_template "login.html" []).

Definition register : Handler := λ request,
  if String.eqb (method request) "POST" then
    username ← form_getitem request "username";
    password ← form_getitem request "password";
    try_except
      (user ← sign_up username password;
       match signed_user user with
       | Some u =>
           _ ← session_setitem "username" (VStr username);
           _ ← session_setitem "user_id" (VStr (user_id u));
           mret (redirect (url_for "profile"))
       | None =>
           mret (render_template "register.html"
                   [("error", CtxVal (VStr "Registration failed"))])
       end)
      (λ e, mret (render_template "register.html" [("error", CtxVal (VStr (str e)))]))
  else mret (render_template "register.html" []).

Definition profile : Handler := login_required (λ request,
  s ← gets session;
  username ← getitem s "username";
  mret (render_template "profile.html" [("username", CtxVal username)])).

Definition admin : Handler := admin_required (λ request,
  mret (render_template "admin.html" [])).

Definition logout : Handler := login_required (λ request,
  _ ← modify (with_session ∅);
  mret (redirect (url_for "login"))).

Definition update_post (post_id : string) : Handler := login_required (λ request,
  description ← form_getitem request "description";
  crowd ← form_getitem request "crowd";
  chips ← form_getitem request "chips";
  queue ← form_getitem request "queue";
  (* Check if a status update exists *)
  status_response ←
    execute (t_status_updates .> select "*" None
               .> eq_ "resource_id" (VStr post_id));
  let status := data status_response in
  _ ← (if list_truthy status then
         execute (t_status_updates
                    .> update {[ "crowd_level" := VStr crowd;
                                 "chips_available" := VStr chips;
                                 "queue_length" := VStr queue;
                                 "status_message" := VStr description ]}
                    .> eq_ "resource_id" (VStr post_id))
       else
         sid ← uuid4;
         execute (t_status_updates
                    .> insert_ {[ "id" := VStr sid;
                                  "resource_id" := VStr post_id;
                                  "crowd_level" := VStr crowd;
                                  "chips_available" := VStr chips;
                                  "queue_length" := VStr queue;
                                  "status_message" := VStr description ]}));
  mret (redirect (url_for "index"))).

Definition create_post : Handler := login_required (λ request,
  if String.eqb (method request) "POST" then
    title ← form_getitem request "title";
    description ← form_getitem request "description";
    crowd ← form_getitem request "crowd";
    chips ← form_getitem request "chips";
    queue ← form_getitem request "queue";
    (* Insert new resource *)
    resource_id ← uuid4;
    _ ← execute (t_resources .> insert_ {[ "id" := VStr resource_id;
                                           "name" := VStr title ]});
    (* Insert initial status update *)
    sid ← uuid4;
    _ ← execute (t_status_updates
                   .> insert_ {[ "id" := VStr sid;
                                 "resource_id" := VStr resource_id;
                                 "status_message" := VStr description;
                                 "crowd_level" := VStr crowd;
                                 "chips_available" := VStr chips;
                                 "queue_length" := VStr queue ]});
    mret (redirect (url_for "index"))
  else mret (render_template "create_post.html" [])).

(** ** Vocabulary of the properties *)

(** A row that holds every column of [ks]. *)
Definition has_keys (ks : list string) (r : dict) : Prop :=
  Forall (λ k, is_Some (r !! k)) ks.

#[global] Instance has_keys_dec ks r : Decision (has_keys ks r).
Proof. unfold has_keys. apply _. Defined.

(** The columns [fetch_posts] subscripts: [resource['id']] and
    [resource['name']] in a resource row, the four [status[..]] in a
    status-update row. *)
Definition resource_columns : list string := ["id"; "name"].
Definition status_columns : list string :=
  ["status_message"; "crowd_level"; "chips_available"; "queue_length"].

(** The rows the tables hand out carry those columns, as rows of the schema
    do. *)
Definition schema_ok (db : Tables) : Prop :=
  Forall (has_keys resource_columns) (tbl_resources db) ∧
  Forall (has_keys status_columns) (tbl_status_updates db).

#[global] Instance schema_ok_dec db : Decision (schema_ok db).
Proof. unfold schema_ok. apply _. Defined.

(** An upvote or status-update row of the resource [rid]. *)
Definition references (rid : val) (row : dict) : Prop :=
  row !! "resource_id" = Some rid.

#[global] Instance references_dec rid row : Decision (references rid row).
Proof. unfold references. apply _. Defined.

(** The number of upvote rows of the resource [rid]. *)
Definition upvote_count (db : Tables) (rid : val) : nat :=
  length (filter (references rid) (tbl_upvotes db)).

(** The status-update row of [rid] that comes first by [created_at],
    newest first, if there is any. *)
Definition latest_status (db : Tables) (rid : val) : option dict :=
  head (order_rows "created_at" true (filter (references rid) (tbl_status_updates db))).

(** The Post of a resource row, as a function of the tables. *)
Definition field_or_empty (status : option dict) (k : string) : val :=
  match status with Some s => get s k | None => VStr "" end.

Definition post_view (db : Tables) (r : dict) : Post.t :=
  let status := latest_status db (get r "id") in
  {| Post.id := get r "id"; Post.title := get r "name";
     Post.image_url := get r "image_url";
     Post.description := field_or_empty status "status_message";
     Post.upvotes := Z.of_nat (upvote_count db (get r "id"));
     Post.comments := 0;
     Post.crowd := field_or_empty status "crowd_level";
     Post.chips := field_or_empty status "chips_available";
     Post.queue := field_or_empty status "queue_length" |}.

(** The order [fetch_posts] leaves its list in. *)
Definition by_upvotes_desc (a b : Post.t) : Prop :=
  (Post.upvotes b ≤ Post.upvotes a)%Z.



(** The columns of a status-update row as the handlers insert it. *)
Definition inserted_status_fields : gset string :=
  {[ "id"; "resource_id"; "status_message"; "crowd_level"; "chips_available";
     "queue_length" ]}.

(** A handler that took the world from [w] to [w'] wrote no [created_at]:
    the status-update table is the rows it had, each with the [created_at]
    it had, followed by the rows inserted, each with exactly the six fields
    and so without [created_at]. *)
Definition writes_no_created_at (w w' : World) : Prop :=
  ∃ kept added : list dict,
    tbl_status_updates (supabase w') = (kept ++ added)%list ∧
    Forall2 (λ s s' : dict, s' !! "created_at" = s !! "created_at")
            (tbl_status_updates (supabase w)) kept ∧
    Forall (λ row : dict, dom row = inserted_status_fields ∧
                          row !! "created_at" = None) added.

(** ** Two sentences of the specification, as worded *)

(** Login failure as the specification words it: whenever the backend turns
    a login down, by its answer or by raising, the form comes back with an
    error string that is not empty, and the world is what it was. *)
Definition login_failure_claim : Prop :=
  ∀ request w username password,
    method request = "POST" →
    form request !! "username" = Some username →
    form request !! "password" = Some password →
    (∀ u, auth_sign_in w username password ≠ AuthReturns (AuthUserAttr (Some u))) →
    ∃ error,
      error ≠ "" ∧
      login request w =
      (Ok (render_template "login.html" [("error", CtxVal (VStr error))]), w).


(** ** A small board, for the examples *)

Definition demo_tables : Tables :=
  {| tbl_resources :=
       [ {[ "id" := VStr "r1"; "name" := VStr "Canteen" ]};
         {[ "id" := VStr "r2"; "name" := VStr "Library"; "image_url" := VStr "lib.png" ]};
         {[ "id" := VStr "r3"; "name" := VStr "Gym" ]} ];
     tbl_status_updates :=
       [ {[ "id" := VStr "s1"; "resource_id" := VStr "r2";
            "status_message" := VStr "quiet"; "crowd_level" := VStr "low";
            "chips_available" := VStr "yes"; "queue_length" := VStr "3" ]} ];
     tbl_upvotes :=
       [ {[ "id" := VStr "v1"; "resource_id" := VStr "r2"; "user_id" := VStr "alice" ]};
         {[ "id" := VStr "v2"; "resource_id" := VStr "r3"; "user_id" := VStr "alice" ]};
         {[ "id" := VStr "v3"; "resource_id" := VStr "r3"; "user_id" := VStr "bob" ]} ] |}.

Definition demo_world (s : dict) : World :=
  {| supabase := demo_tables;
     auth_sign_in := λ email password,
       if String.eqb password "secret"
       then AuthReturns (AuthUserAttr (Some {| user_id := "alice" |}))
       else AuthRaises "Invalid login credentials";
     auth_sign_up := λ email password,
       AuthReturns (AuthUserAttr (Some {| user_id := "carol" |}));
     session := s;
     uuid_source := λ n, "uuid-" ++ String (Ascii.ascii_of_nat (97 + n)) "";
     uuid_drawn := 0 |}.

Definition demo_post_canteen : Post.t :=
  {| Post.id := VStr "r1"; Post.title := VStr "Canteen"; Post.image_url := VNone;
     Post.description := VStr ""; Post.upvotes := 0; Post.comments := 0;
     Post.crowd := VStr ""; Post.chips := VStr ""; Post.queue := VStr "" |}.

Definition demo_post_library : Post.t :=
  {| Post.id := VStr "r2"; Post.title := VStr "Library";
     Post.image_url := VStr "lib.png";
     Post.description := VStr "quiet"; Post.upvotes := 1; Post.comments := 0;
     Post.crowd := VStr "low"; Post.chips := VStr "yes"; Post.queue := VStr "3" |}.

Definition demo_post_gym : Post.t :=
  {| Post.id := VStr "r3"; Post.title := VStr "Gym"; Post.image_url := VNone;
     Post.description := VStr ""; Post.upvotes := 2; Post.comments := 0;
     Post.crowd := VStr ""; Post.chips := VStr ""; Post.queue := VStr "" |}.

(** The same board behind a backend whose sign-in raises an error without a
    message, as a timeout does. *)
Definition silent_world : World :=
  with_auth_sign_in (λ _ _, AuthRaises "") (demo_world ∅).

Definition alice_session : dict :=
  {[ "username" := VStr "alice@example.org"; "is_admin" := VBool false;
     "user_id" := VStr "alice" ]}.

Definition login_request : Request :=
  {| method := "POST";
     form := {[ "username" := "alice@example.org"; "password" := "secret" ]};
     json := ∅ |}.

Definition update_request : Request :=
  {| method := "POST";
     form := {[ "description" := "packed"; "crowd" := "high";
                "chips" := "no"; "queue" := "12" ]};
     json := ∅ |}.

Definition create_request : Request :=
  {| method := "POST";
     form := {[ "title" := "Pool"; "description" := "open"; "crowd" := "low";
                "chips" := "yes"; "queue" := "0" ]};
     json := ∅ |}.

(** ** The registered views

    The functions [@app.route] registers, by endpoint. *)

Inductive endpoint :=
  | ep_upvote
  | ep_index
  | ep_about
  | ep_login
  | ep_register
  | ep_profile
  | ep_admin
  | ep_logout
  | ep_update_post (post_id : string)
  | ep_create_post.

Definition view_function (e : endpoint) : Handler :=
  match e with
  | ep_upvote => upvote
  | ep_index => index
  | ep_about => about
  | ep_login => login
  | ep_register => register
  | ep_profile => profile
  | ep_admin => admin
  | ep_logout => logout
  | ep_update_post post_id => update_post post_id
  | ep_create_post => create_post
  end.

(** ** Vocabulary of the further properties *)

(** A computation that takes every world to one related to it by [R],
    whether it returns or raises. *)
Definition preserves {A} (R : relation World) (m : M A) : Prop :=
  ∀ w, R w (m w).2.

Definition same_session : relation World :=
  λ w w', session w' = session w.

(** [session.get('is_admin')] is truthy: what [admin_required] lets through. *)
Definition is_admin_session (w : World) : bool :=
  truthy (get (session w) "is_admin").

Definition no_admin_gained : relation World :=
  λ w w', is_admin_session w = false → is_admin_session w' = false.

(** The views that write the session. *)
Definition writes_session (e : endpoint) : bool :=
  match e with
  | ep_login | ep_register | ep_logout => true
  | _ => false
  end.

(** An upvote row of the user [uid] for the resource [rid]: what the
    double-upvote check of [upvote] looks for. *)

Definition upvoted_by (rid uid : val) (row : dict) : Prop :=
  row !! "resource_id" = Some rid ∧ row !! "user_id" = Some uid.

#[global] Instance upvoted_by_dec rid uid row : Decision (upvoted_by rid uid row).
Proof. unfold upvoted_by. apply _. Defined.


(** The world after [upvote] has appended its row. *)
Definition upvoted (request : Request) (w : World) : World :=
  with_supabase
    (set_rows t_upvotes
       (tbl_upvotes (supabase w) ++
        [ {[ "id" := VStr (uuid_source w (uuid_drawn w));
             "resource_id" := get (json request) "resource_id";
             "user_id" := get (session w) "user_id" ]} ])%list
       (supabase w))
    (with_uuid_drawn (S (uuid_drawn w)) w).

Definition upvote_request : Request :=
  {| method := "POST"; form := ∅; json := {[ "resource_id" := VStr "r1" ]} |}.

Definition same_tables : relation World :=
  λ w w', supabase w' = supabase w.

Definition with_auth_sign_up (f : string → string → AuthOutcome) (w : World) :
    World :=
  {| supabase := supabase w; auth_sign_in := auth_sign_in w; auth_sign_up := f;
     session := session w; uuid_source := uuid_source w;
     uuid_drawn := uuid_drawn w |}.

(** The board behind a backend that answers every sign-up without a user. *)
Definition closed_world : World :=
  with_auth_sign_up (λ _ _, AuthReturns (AuthUserAttr None)) (demo_world ∅).

Definition nameless_request : Request :=
  {| method := "POST"; form := {[ "username" := "alice@example.org" ]};
     json := ∅ |}.

(** A computation that raises nothing but [KeyError]. *)
Definition raises_key_errors_only {A} (m : M A) : Prop :=
  ∀ w e w', m w = (Raise e, w') → ∃ k, e = KeyError k.


(** A board with a resource row that has lost its name. *)
Definition broken_world : World :=
  with_supabase
    {| tbl_resources := [ {[ "id" := VStr "r1"; "name" := VStr "Canteen" ]};
                          {[ "id" := VStr "r2" ]} ];
       tbl_status_updates := [];
       tbl_upvotes := [] |}
    (demo_world ∅).

(** The Post of a resource [rid] named [name] whose status is the four
    fields, as the listing shows it. *)
Definition post_with_status (rid name image_url : val)
    (description crowd chips queue : string) (upvotes : Z) : Post.t :=
  {| Post.id := rid; Post.title := name; Post.image_url := image_url;
     Post.description := VStr description; Post.upvotes := upvotes;
     Post.comments := 0; Post.crowd := VStr crowd; Post.chips := VStr chips;
     Post.queue := VStr queue |}.

(** A browsing history: the views called, each with its request, one after
    the other. *)
Definition run_views (history : list (endpoint * Request)) (w : World) : World :=
  foldl (λ w '(e, request), (view_function e request w).2) w history.

(** * Properties *)

(** ** The monad *)

Lemma bind_eq {A B} (m : M A) (f : A → M B) w :
  (m ≫= f) w =
  match m w with (Ok a, w') => f a w' | (Raise e, w') => (Raise e, w') end.
Proof. reflexivity. Qed.

Lemma bind_Ok_inv {A B} (m : M A) (f : A → M B) w b w' :
  (m ≫= f) w = (Ok b, w') → ∃ a w1, m w = (Ok a, w1) ∧ f a w1 = (Ok b, w').
Proof.
  rewrite bind_eq. destruct (m w) as [[a|e] w1]; intros H.
  - exists a, w1. split; [reflexivity | exact H].
  - discriminate H.
Qed.

Lemma mret_eq {A} (a : A) w : (mret a : M A) w = (Ok a, w).
Proof. reflexivity. Qed.

Lemma gets_eq {A} (f : World → A) w : gets f w = (Ok (f w), w).
Proof. reflexivity. Qed.

Lemma try_except_eq {A} (body : M A) (handler : exn → M A) w :
  try_except body handler w =
  match body w with (Ok a, w') => (Ok a, w') | (Raise e, w') => handler e w' end.
Proof. reflexivity. Qed.

Lemma getitem_Some d k v w : d !! k = Some v → getitem d k w = (Ok v, w).
Proof. intros H. unfold getitem. by rewrite H. Qed.

Lemma getitem_get d k w : is_Some (d !! k) → getitem d k w = (Ok (get d k), w).
Proof. intros [v H]. unfold get. rewrite H. by apply getitem_Some. Qed.

Lemma form_getitem_Some request k v w :
  form request !! k = Some v → form_getitem request k w = (Ok v, w).
Proof. intros H. unfold form_getitem. by rewrite H. Qed.

Lemma form_getitem_None request k w :
  form request !! k = None →
  form_getitem request k w = (Raise (BadRequestKeyError k), w).
Proof. intros H. unfold form_getitem. by rewrite H. Qed.

Ltac form_step H :=
  first [ rewrite bind_eq, (form_getitem_Some _ _ _ _ H)
        | rewrite bind_eq, (form_getitem_None _ _ _ H) ].

(** ** Lists *)

Lemma head_take_1 {A} (l : list A) : head (take 1 l) = head l.
Proof. by destruct l. Qed.

Lemma filter_none {A} (P : A → Prop) `{∀ x, Decision (P x)} (l : list A) :
  (∀ x, x ∈ l → ¬ P x) → filter P l = [].
Proof.
  induction l as [|x l IH]; intros Hl; [done|].
  rewrite filter_cons_False by (apply Hl; left).
  apply IH. intros y Hy. apply Hl. by right.
Qed.

Lemma filter_no_filters (l : list dict) : filter (matches []) l = l.
Proof.
  induction l as [|r l IH]; [done|].
  rewrite filter_cons_True by constructor. by f_equal.
Qed.


Lemma list_truthy_filter {A} (P : A → Prop) `{∀ x, Decision (P x)} (l : list A) :
  list_truthy (filter P l) = bool_decide (Exists P l).
Proof.
  destruct (filter P l) as [|x l'] eqn:E; simpl; symmetry.
  - apply bool_decide_eq_false_2. rewrite Exists_exists. intros (x & Hx & HP).
    by apply (filter_nil_not_elem_of P l x E HP).
  - apply bool_decide_eq_true_2. rewrite Exists_exists. exists x.
    assert (x ∈ filter P l) as Hx by (rewrite E; left).
    apply list_elem_of_filter in Hx as [? ?]. done.
Qed.

Lemma Forall_not_Exists {A} (P : A → Prop) (l : list A) :
  Forall (λ x, ¬ P x) l → ¬ Exists P l.
Proof. rewrite Forall_forall, Exists_exists. intros H (x & Hx & HP). by apply (H x). Qed.

Lemma StronglySorted_lookup {A} (R : relation A) (l : list A) i j a b :
  StronglySorted R l → (i < j)%nat → l !! i = Some a → l !! j = Some b → R a b.
Proof.
  intros Hs. revert i j. induction Hs as [|x l Hl IH Hx]; intros i j Hij Hi Hj.
  - by rewrite lookup_nil in Hi.
  - destruct j as [|j]; [lia|]. destruct i as [|i]; simpl in *.
    + injection Hi as <-. rewrite Forall_forall in Hx. apply Hx.
      by eapply list_elem_of_lookup_2.
    + apply (IH i j); [lia | done | done].
Qed.

(** ** The stable sort *)

Section stable_sort.
Context {A : Type} (before : A → A → bool).

Lemma insert_sorted_perm x l : insert_sorted before x l ≡ₚ x :: l.
Proof.
  induction l as [|y l IH]; simpl; [done|].
  destruct (before y x); [|done].
  rewrite IH. apply Permutation_swap.
Qed.

Lemma stable_sort_perm l : stable_sort before l ≡ₚ l.
Proof.
  induction l as [|x l IH]; simpl; [done|].
  rewrite insert_sorted_perm. by f_equiv.
Qed.

(** Stability: a class [P] of elements none of which has to come before
    another keeps its order. *)
Lemma insert_sorted_filter (P : A → Prop) `{∀ x, Decision (P x)} x l :
  (∀ y, P x → P y → before y x = false) →
  filter P (insert_sorted before x l) = filter P (x :: l).
Proof.
  intros HP. induction l as [|y l IH]; simpl; [done|].
  destruct (before y x) eqn:Hb; [|done].
  rewrite (filter_cons _ y), IH, !(filter_cons _ x), (filter_cons _ y).
  destruct (decide (P x)) as [Hx|Hx]; [|done].
  destruct (decide (P y)) as [Hy|Hy]; [|done].
  rewrite (HP y Hx Hy) in Hb. discriminate Hb.
Qed.

Lemma stable_sort_filter (P : A → Prop) `{∀ x, Decision (P x)} l :
  (∀ x y, P x → P y → before y x = false) →
  filter P (stable_sort before l) = filter P l.
Proof.
  intros HP. induction l as [|x l IH]; simpl; [done|].
  rewrite insert_sorted_filter by (intros y; apply HP).
  by rewrite !(filter_cons _ x), IH.
Qed.

(** [R] is the order the sort establishes: whoever has to come before is
    in [R], and of two elements none of which has to, the later is in [R]
    with the earlier. *)
Context (R : relation A) `{!Transitive R}.
Hypothesis before_R : ∀ y x, before y x = true → R y x.
Hypothesis not_before_R : ∀ y x, before y x = false → R x y.

Lemma insert_sorted_sorted x l :
  StronglySorted R l → StronglySorted R (insert_sorted before x l).
Proof.
  induction 1 as [|y l Hl IH Hy]; simpl.
  - repeat constructor.
  - destruct (before y x) eqn:Hb.
    + constructor; [exact IH|].
      rewrite insert_sorted_perm. constructor; [by apply before_R | exact Hy].
    + apply not_before_R in Hb.
      constructor; [by constructor|].
      constructor; [exact Hb|].
      eapply Forall_impl; [exact Hy|]. intros z Hz. by etrans.
Qed.

Lemma stable_sort_sorted l : StronglySorted R (stable_sort before l).
Proof.
  induction l as [|x l IH]; simpl; [constructor|].
  by apply insert_sorted_sorted.
Qed.
End stable_sort.

(** ** Queries *)

Lemma matches_single c v r : matches [(c, v)] r ↔ r !! c = Some v.
Proof.
  unfold matches. rewrite Forall_singleton. reflexivity.
Qed.

Lemma filter_single c v (l : list dict) :
  filter (matches [(c, v)]) l = filter (λ r, r !! c = Some v) l.
Proof. apply list_filter_iff. intros r. apply matches_single. Qed.

Lemma fmap_project_all (l : list dict) : project "*" <$> l = l.
Proof. induction l; simpl; [done|]. by f_equal. Qed.

Lemma resources_query_eq w :
  execute (t_resources .> select "*" None) w =
  (Ok {| data := tbl_resources (supabase w); count := None |}, w).
Proof.
  unfold execute; simpl. by rewrite fmap_project_all, filter_no_filters.
Qed.

Lemma status_query_eq rid w :
  execute (t_status_updates .> select "*" None .> eq_ "resource_id" rid
             .> order "created_at" true .> limit 1) w =
  (Ok {| data := take 1 (order_rows "created_at" true
                   (filter (references rid) (tbl_status_updates (supabase w))));
         count := None |}, w).
Proof.
  unfold execute; simpl. rewrite fmap_project_all, filter_single. reflexivity.
Qed.

Lemma upvotes_query_eq rid w :
  execute (t_upvotes .> select "id" (Some exact) .> eq_ "resource_id" rid) w =
  (Ok {| data := project "id" <$> filter (references rid) (tbl_upvotes (supabase w));
         count := Some (Z.of_nat (upvote_count (supabase w) rid)) |}, w).
Proof.
  unfold execute; simpl. rewrite filter_single. reflexivity.
Qed.

Lemma existing_upvote_query_eq rid uid w :
  execute (t_upvotes .> select "*" None .> eq_ "resource_id" rid
             .> eq_ "user_id" uid) w =
  (Ok {| data := filter (matches [("resource_id", rid); ("user_id", uid)])
                   (tbl_upvotes (supabase w));
         count := None |}, w).
Proof. unfold execute; simpl. by rewrite fmap_project_all. Qed.

Lemma existing_status_query_eq rid w :
  execute (t_status_updates .> select "*" None .> eq_ "resource_id" rid) w =
  (Ok {| data := filter (references rid) (tbl_status_updates (supabase w));
         count := None |}, w).
Proof. unfold execute; simpl. by rewrite fmap_project_all, filter_single. Qed.

Lemma update_eq t changes c v w :
  execute (t .> update changes .> eq_ c v) w =
  (Ok {| data := (λ r : dict, if decide (r !! c = Some v) then changes ∪ r else r)
                   <$> filter (λ r : dict, r !! c = Some v) (rows t (supabase w));
         count := None |},
   with_supabase
     (set_rows t ((λ r : dict, if decide (r !! c = Some v) then changes ∪ r else r)
                    <$> rows t (supabase w)) (supabase w)) w).
Proof.
  unfold execute; simpl. rewrite filter_single.
  assert (∀ l : list dict,
            (λ r : dict, if decide (matches [(c, v)] r) then changes ∪ r else r) <$> l =
            (λ r : dict, if decide (r !! c = Some v) then changes ∪ r else r) <$> l) as E.
  { intros l. apply list_fmap_ext. intros _ r _.
    destruct (decide (matches [(c, v)] r)) as [Hm|Hm], (decide (r !! c = Some v)) as [Hr|Hr];
      try done; rewrite matches_single in Hm; done. }
  by rewrite !E.
Qed.

(** ** The aggregation function *)

Lemma status_field_get status k w :
  (∀ s, status = Some s → has_keys status_columns s) → k ∈ status_columns →
  status_field status k w = (Ok (field_or_empty status k), w).
Proof.
  intros Hs Hk. destruct status as [s|]; simpl; [|done].
  specialize (Hs s eq_refl). unfold has_keys in Hs. rewrite Forall_forall in Hs.
  pose proof (Hs k Hk) as Hsk.
  assert (s ≠ ∅) as Hne.
  { intros ->. rewrite lookup_empty in Hsk. by destruct Hsk. }
  unfold dict_truthy. rewrite bool_decide_eq_false_2 by done. simpl.
  by apply getitem_get.
Qed.

Lemma latest_status_elem db rid s :
  latest_status db rid = Some s → s ∈ tbl_status_updates db ∧ references rid s.
Proof.
  unfold latest_status. intros H. apply head_Some_elem_of in H.
  unfold order_rows in H. rewrite stable_sort_perm in H.
  by apply list_elem_of_filter in H as [? ?].
Qed.

Lemma post_of_view r w :
  has_keys resource_columns r →
  Forall (has_keys status_columns) (tbl_status_updates (supabase w)) →
  post_of r w = (Ok (post_view (supabase w) r), w).
Proof.
  intros Hr Hst. unfold has_keys, resource_columns in Hr.
  apply Forall_cons in Hr as [Hid Hr]. apply Forall_cons in Hr as [Hname _].
  unfold post_of.
  rewrite bind_eq, (getitem_get _ _ _ Hid).
  rewrite bind_eq, status_query_eq.
  rewrite bind_eq, (getitem_get _ _ _ Hid).
  rewrite bind_eq, upvotes_query_eq.
  rewrite bind_eq, (getitem_get _ _ _ Hid).
  rewrite bind_eq, (getitem_get _ _ _ Hname).
  cbv beta iota zeta. unfold data, count. rewrite head_take_1.
  fold (latest_status (supabase w) (get r "id")).
  assert (∀ s, latest_status (supabase w) (get r "id") = Some s →
               has_keys status_columns s) as Hs.
  { intros s Hs. apply latest_status_elem in Hs as [Hs _].
    rewrite Forall_forall in Hst. by apply Hst. }
  assert (∀ k, k ∈ status_columns →
               status_field (latest_status (supabase w) (get r "id")) k w =
               (Ok (field_or_empty (latest_status (supabase w) (get r "id")) k), w))
    as Hfield by (intros k Hk; by apply status_field_get).
  unfold status_columns in Hfield.
  rewrite bind_eq, Hfield by set_solver.
  rewrite bind_eq, Hfield by set_solver.
  rewrite bind_eq, Hfield by set_solver.
  rewrite bind_eq, Hfield by set_solver.
  reflexivity.
Qed.

Lemma mapM_post_of rs w :
  Forall (has_keys resource_columns) rs →
  Forall (has_keys status_columns) (tbl_status_updates (supabase w)) →
  mapM post_of rs w = (Ok (post_view (supabase w) <$> rs), w).
Proof.
  intros Hrs Hst. induction Hrs as [|r rs Hr Hrs IH]; simpl; [done|].
  rewrite bind_eq, (post_of_view _ _ Hr Hst).
  rewrite bind_eq, IH. reflexivity.
Qed.

Lemma fetch_posts_eq w :
  schema_ok (supabase w) →
  fetch_posts w =
  (Ok (sort_by_upvotes_desc (post_view (supabase w) <$> tbl_resources (supabase w))), w).
Proof.
  intros [Hrs Hst]. unfold fetch_posts.
  rewrite bind_eq, resources_query_eq.
  rewrite bind_eq. unfold data. by rewrite (mapM_post_of _ _ Hrs Hst).
Qed.

Lemma fetch_posts_sorted_inv w posts w' :
  fetch_posts w = (Ok posts, w') → ∃ l, posts = sort_by_upvotes_desc l.
Proof.
  unfold fetch_posts. intros H.
  apply bind_Ok_inv in H as (resp & w1 & _ & H).
  apply bind_Ok_inv in H as (l & w2 & _ & H).
  rewrite mret_eq in H. injection H as <- _. by exists l.
Qed.

#[global] Instance by_upvotes_desc_trans : Transitive by_upvotes_desc.
Proof. unfold by_upvotes_desc. intros a b c ? ?. lia. Qed.

Lemma sort_by_upvotes_desc_sorted l :
  StronglySorted by_upvotes_desc (sort_by_upvotes_desc l).
Proof.
  apply stable_sort_sorted; [apply _ | |]; unfold by_upvotes_desc; intros y x H.
  - apply Z.ltb_lt in H. lia.
  - apply Z.ltb_ge in H. lia.
Qed.

(** Posts with the same upvotes stay in the order of their resource rows, as
    under Python's [sort] with [reverse=True]. *)
Lemma sort_by_upvotes_desc_stable (n : Z) l :
  filter (λ p, Post.upvotes p = n) (sort_by_upvotes_desc l) =
  filter (λ p, Post.upvotes p = n) l.
Proof.
  apply stable_sort_filter. intros x y -> ->. apply Z.ltb_irrefl.
Qed.

Example fetch_posts_demo :
  fetch_posts (demo_world ∅) =
  (Ok [demo_post_gym; demo_post_library; demo_post_canteen], demo_world ∅).
Proof. vm_compute. reflexivity. Qed.

Lemma demo_schema_ok s : schema_ok (supabase (demo_world s)).
Proof. apply (bool_decide_unpack _). vm_compute. exact I. Defined.

(** C1.  When the rows carry the columns of the schema, [fetch_posts]
    returns, leaves the world as it was, and its list is a rearrangement of
    one Post per resource row, in the order of the rows: the Post of a row
    has the row's id, and its upvotes are the number of upvote rows whose
    [resource_id] is that id. *)
Theorem fetch_posts_one_post_per_resource w :
  schema_ok (supabase w) →
  ∃ posts unsorted,
    fetch_posts w = (Ok posts, w) ∧
    posts ≡ₚ unsorted ∧
    Forall2 (λ (r : dict) p,
               r !! "id" = Some (Post.id p) ∧
               Post.upvotes p = Z.of_nat (upvote_count (supabase w) (Post.id p)))
            (tbl_resources (supabase w)) unsorted.
Proof.
  intros Hok. pose proof Hok as [Hrs _].
  exists (sort_by_upvotes_desc (post_view (supabase w) <$> tbl_resources (supabase w))),
         (post_view (supabase w) <$> tbl_resources (supabase w)).
  split; [by apply fetch_posts_eq|]. split; [apply stable_sort_perm|].
  apply Forall2_fmap_r, Forall_Forall2_diag.
  eapply Forall_impl; [exact Hrs|]. intros r Hr. simpl.
  unfold has_keys, resource_columns in Hr. apply Forall_cons in Hr as [[v Hv] _].
  unfold get. rewrite Hv. done.
Qed.

Lemma fetch_posts_one_post_per_resource_witness :
  ∃ posts unsorted,
    fetch_posts (demo_world ∅) = (Ok posts, demo_world ∅) ∧
    posts ≡ₚ unsorted ∧
    Forall2 (λ (r : dict) p,
               r !! "id" = Some (Post.id p) ∧
               Post.upvotes p = Z.of_nat (upvote_count (supabase (demo_world ∅)) (Post.id p)))
            (tbl_resources (supabase (demo_world ∅))) unsorted.
Proof. apply (fetch_posts_one_post_per_resource (demo_world ∅)), demo_schema_ok. Defined.

(** C2.  Whatever list [fetch_posts] returns is in descending order of
    [upvotes]: of two posts, the earlier has at least the upvotes of the
    later. *)
Theorem fetch_posts_sorted_desc w posts w' i j a b :
  fetch_posts w = (Ok posts, w') →
  (i < j)%nat → posts !! i = Some a → posts !! j = Some b →
  (Post.upvotes a >= Post.upvotes b)%Z.
Proof.
  intros H Hij Ha Hb. apply fetch_posts_sorted_inv in H as [l ->].
  apply Z.le_ge.
  exact (StronglySorted_lookup by_upvotes_desc _ i j a b
           (sort_by_upvotes_desc_sorted l) Hij Ha Hb).
Qed.

Lemma fetch_posts_sorted_desc_witness :
  fetch_posts (demo_world ∅) =
    (Ok [demo_post_gym; demo_post_library; demo_post_canteen], demo_world ∅) ∧
  (Post.upvotes demo_post_gym >= Post.upvotes demo_post_canteen)%Z.
Proof.
  assert (fetch_posts (demo_world ∅) =
          (Ok [demo_post_gym; demo_post_library; demo_post_canteen], demo_world ∅))
    as H by (vm_compute; reflexivity).
  split; [exact H|].
  apply (fetch_posts_sorted_desc _ _ _ 0 2 _ _ H); [lia | reflexivity | reflexivity].
Defined.

(** C9.  A resource row without any status-update row and without any
    upvote row referencing its id appears in the list of [fetch_posts] as the
    Post with empty description, crowd, chips and queue, no upvotes and no
    comments. *)
Theorem fetch_posts_bare_resource w (r : dict) :
  schema_ok (supabase w) →
  r ∈ tbl_resources (supabase w) →
  (∀ s, s ∈ tbl_status_updates (supabase w) → ¬ references (get r "id") s) →
  (∀ u, u ∈ tbl_upvotes (supabase w) → ¬ references (get r "id") u) →
  ∃ posts,
    fetch_posts w = (Ok posts, w) ∧
    {| Post.id := get r "id"; Post.title := get r "name";
       Post.image_url := get r "image_url";
       Post.description := VStr ""; Post.upvotes := 0; Post.comments := 0;
       Post.crowd := VStr ""; Post.chips := VStr ""; Post.queue := VStr "" |}
    ∈ posts.
Proof.
  intros Hok Hr Hst Hup. eexists. split; [by apply fetch_posts_eq|].
  unfold sort_by_upvotes_desc. rewrite stable_sort_perm.
  apply list_elem_of_fmap. exists r. split; [|exact Hr].
  unfold post_view, latest_status, upvote_count.
  rewrite (filter_none _ _ Hst), (filter_none _ _ Hup). reflexivity.
Qed.

Lemma fetch_posts_bare_resource_witness :
  ∃ posts,
    fetch_posts (demo_world ∅) = (Ok posts, demo_world ∅) ∧
    demo_post_canteen ∈ posts.
Proof.
  refine (fetch_posts_bare_resource (demo_world ∅)
            {[ "id" := VStr "r1"; "name" := VStr "Canteen" ]} _ _ _ _).
  - apply demo_schema_ok.
  - apply (bool_decide_unpack _). vm_compute. exact I.
  - apply Forall_forall, (bool_decide_unpack _). vm_compute. exact I.
  - apply Forall_forall, (bool_decide_unpack _). vm_compute. exact I.
Defined.

(** ** Upvoting *)

(** C7.  Without [username] in the session, [upvote] answers
    [{'error': 'Login required'}] with status 401 and leaves the world, and
    with it the upvotes table, as it was: nothing is inserted. *)
Theorem upvote_login_required request w :
  session w !! "username" = None →
  upvote request w =
  (Ok (jsonify {[ "error" := VStr "Login required" ]} 401), w).
Proof.
  intros Hs. unfold upvote. rewrite bind_eq, gets_eq.
  by rewrite bool_decide_eq_true_2.
Qed.

Lemma upvote_login_required_witness :
  upvote {| method := "POST"; form := ∅; json := {[ "resource_id" := VStr "r1" ]} |}
         (demo_world ∅) =
  (Ok (jsonify {[ "error" := VStr "Login required" ]} 401), demo_world ∅).
Proof. apply upvote_login_required. reflexivity. Defined.



(** An upvote that goes through, for contrast: the row is appended under the
    drawn uuid and the new count is reported. *)
Example upvote_demo :
  let request := {| method := "POST"; form := ∅;
                    json := {[ "resource_id" := VStr "r1" ]} |} in
  let '(resp, w') := upvote request (demo_world alice_session) in
  resp = Ok (jsonify {[ "success" := VBool true; "upvotes" := VInt 1 ]} 200) ∧
  tbl_upvotes (supabase w') =
    (tbl_upvotes demo_tables ++
     [ {[ "id" := VStr "uuid-a"; "resource_id" := VStr "r1"; "user_id" := VStr "alice" ]} ])%list.
Proof. vm_compute. split; reflexivity. Qed.

(** ** Signing in and registering *)

Lemma signed_user_None user :
  (∀ u, user ≠ AuthUserAttr (Some u)) → signed_user user = None.
Proof. destruct user as [| |[u|]]; try done. intros H. by destruct (H u). Qed.

Lemma login_post_eq request w username password :
  method request = "POST" →
  form request !! "username" = Some username →
  form request !! "password" = Some password →
  login request w =
  match auth_sign_in w username password with
  | AuthRaises msg =>
      (Ok (render_template "login.html" [("error", CtxVal (VStr msg))]), w)
  | AuthReturns user =>
      match signed_user user with
      | Some u =>
          (Ok (redirect (url_for "profile")),
           with_session (<["user_id" := VStr (user_id u)]>
                           (<["is_admin" := VBool false]>
                              (<["username" := VStr username]> (session w)))) w)
      | None =>
          (Ok (render_template "login.html"
                 [("error", CtxVal (VStr "Invalid credentials"))]), w)
      end
  end.
Proof.
  intros Hm Hu Hp. unfold login. rewrite Hm, String.eqb_refl.
  rewrite bind_eq, (form_getitem_Some _ _ _ _ Hu).
  rewrite bind_eq, (form_getitem_Some _ _ _ _ Hp).
  rewrite try_except_eq, bind_eq. unfold sign_in_with_password.
  destruct (auth_sign_in w username password) as [msg|user]; [reflexivity|].
  destruct (signed_user user) as [u|]; reflexivity.
Qed.

Lemma register_post_eq request w username password :
  method request = "POST" →
  form request !! "username" = Some username →
  form request !! "password" = Some password →
  register request w =
  match auth_sign_up w username password with
  | AuthRaises msg =>
      (Ok (render_template "register.html" [("error", CtxVal (VStr msg))]), w)
  | AuthReturns user =>
      match signed_user user with
      | Some u =>
          (Ok (redirect (url_for "profile")),
           with_session (<["user_id" := VStr (user_id u)]>
                           (<["username" := VStr username]> (session w))) w)
      | None =>
          (Ok (render_template "register.html"
                 [("error", CtxVal (VStr "Registration failed"))]), w)
      end
  end.
Proof.
  intros Hm Hu Hp. unfold register. rewrite Hm, String.eqb_refl.
  rewrite bind_eq, (form_getitem_Some _ _ _ _ Hu).
  rewrite bind_eq, (form_getitem_Some _ _ _ _ Hp).
  rewrite try_except_eq, bind_eq. unfold sign_up.
  destruct (auth_sign_up w username password) as [msg|user]; [reflexivity|].
  destruct (signed_user user) as [u|]; reflexivity.
Qed.

(** The login half of C3: a sign-in that hands back a user stores
    [username], [is_admin = False] and [user_id] in the session and redirects
    to the profile page. *)
Lemma login_success request w username password u :
  method request = "POST" →
  form request !! "username" = Some username →
  form request !! "password" = Some password →
  auth_sign_in w username password = AuthReturns (AuthUserAttr (Some u)) →
  ∃ w',
    login request w = (Ok (redirect (url_for "profile")), w') ∧
    session w' !! "username" = Some (VStr username) ∧
    session w' !! "user_id" = Some (VStr (user_id u)) ∧
    session w' !! "is_admin" = Some (VBool false).
Proof.
  intros Hm Hu Hp Hs. rewrite (login_post_eq _ _ _ _ Hm Hu Hp), Hs. simpl.
  eexists. split; [reflexivity|]. simpl.
  by rewrite !lookup_insert.
Qed.

(** The register half: [username] and [user_id] are stored, and [is_admin]
    is left as the session had it. *)
Lemma register_success request w username password u :
  method request = "POST" →
  form request !! "username" = Some username →
  form request !! "password" = Some password →
  auth_sign_up w username password = AuthReturns (AuthUserAttr (Some u)) →
  ∃ w',
    register request w = (Ok (redirect (url_for "profile")), w') ∧
    session w' !! "username" = Some (VStr username) ∧
    session w' !! "user_id" = Some (VStr (user_id u)) ∧
    session w' !! "is_admin" = session w !! "is_admin".
Proof.
  intros Hm Hu Hp Hs. rewrite (register_post_eq _ _ _ _ Hm Hu Hp), Hs. simpl.
  eexists. split; [reflexivity|]. simpl.
  by rewrite !lookup_insert.
Qed.

(** C3, at the input where it fails: registering from an empty session, with
    a sign-up that hands back the user [carol], redirects to the profile page
    with [username] and [user_id] in the session and no [is_admin] key. *)
Theorem register_leaves_is_admin_unset :
  auth_sign_up (demo_world ∅) "alice@example.org" "secret" =
    AuthReturns (AuthUserAttr (Some {| user_id := "carol" |})) ∧
  let '(resp, w') := register login_request (demo_world ∅) in
  resp = Ok (redirect (url_for "profile")) ∧
  session w' !! "username" = Some (VStr "alice@example.org") ∧
  session w' !! "user_id" = Some (VStr "carol") ∧
  session w' !! "is_admin" = None.
Proof. split; [reflexivity|]. vm_compute. repeat split; reflexivity. Qed.

(** C8.  When the backend turns a login down, the login form comes back and
    the world, the session in it, is what it was.  The error string is
    [Invalid credentials] when the backend answered without a user and
    [str(e)] when it raised [e]; it is empty only in the latter case, for an
    exception whose message is empty. *)
Theorem login_failure request w username password :
  method request = "POST" →
  form request !! "username" = Some username →
  form request !! "password" = Some password →
  (∀ u, auth_sign_in w username password ≠ AuthReturns (AuthUserAttr (Some u))) →
  ∃ error,
    login request w =
      (Ok (render_template "login.html" [("error", CtxVal (VStr error))]), w) ∧
    error = match auth_sign_in w username password with
            | AuthRaises msg => msg
            | AuthReturns _ => "Invalid credentials"
            end ∧
    (error = "" → auth_sign_in w username password = AuthRaises "").
Proof.
  intros Hm Hu Hp Hs. rewrite (login_post_eq _ _ _ _ Hm Hu Hp).
  destruct (auth_sign_in w username password) as [msg|user].
  - exists msg. split; [done|]. split; [done|]. by intros ->.
  - rewrite signed_user_None by (intros u ->; by destruct (Hs u)).
    exists "Invalid credentials". split; [done|]. split; [done|]. discriminate.
Qed.

Lemma login_failure_witness :
  ∃ error,
    login {| method := "POST";
             form := {[ "username" := "alice@example.org"; "password" := "guess" ]};
             json := ∅ |} (demo_world ∅) =
      (Ok (render_template "login.html" [("error", CtxVal (VStr error))]),
       demo_world ∅) ∧
    error = "Invalid login credentials" ∧
    (error = "" →
     auth_sign_in (demo_world ∅) "alice@example.org" "guess" = AuthRaises "").
Proof.
  refine (login_failure _ (demo_world ∅) "alice@example.org" "guess" _ _ _ _).
  - reflexivity.
  - reflexivity.
  - reflexivity.
  - intros u. vm_compute. discriminate.
Defined.

(** C8 as worded fails: a backend error whose message is empty is shown as
    an empty error string. *)
Lemma login_failure_claim_counterexample :
  auth_sign_in silent_world "alice@example.org" "secret" = AuthRaises "" ∧
  login login_request silent_world =
    (Ok (render_template "login.html" [("error", CtxVal (VStr ""))]),
     silent_world) ∧
  ¬ login_failure_claim.
Proof.
  split; [reflexivity|]. split; [vm_compute; reflexivity|].
  intros H.
  destruct (H login_request silent_world "alice@example.org" "secret")
    as (error & Hne & Heq); [reflexivity | reflexivity | reflexivity | |].
  - intros u. simpl. discriminate.
  - vm_compute in Heq. congruence.
Qed.

(** ** The login gate *)

Lemma login_required_out f request w :
  session w !! "username" = None →
  login_required f request w = (Ok (redirect (url_for "login")), w).
Proof.
  intros H. unfold login_required. rewrite bind_eq, gets_eq.
  by rewrite bool_decide_eq_true_2.
Qed.

Lemma login_required_in f request w :
  is_Some (session w !! "username") → login_required f request w = f request w.
Proof.
  intros [u H]. unfold login_required. rewrite bind_eq, gets_eq.
  by rewrite bool_decide_eq_false_2 by (rewrite H; discriminate).
Qed.

(** ** Updating a post *)

(** [update_post] in a signed-in session, on a form with the four fields. *)
Lemma update_post_eq post_id request w description crowd chips queue :
  is_Some (session w !! "username") →
  form request !! "description" = Some description →
  form request !! "crowd" = Some crowd →
  form request !! "chips" = Some chips →
  form request !! "queue" = Some queue →
  update_post post_id request w =
  (Ok (redirect (url_for "index")),
   if bool_decide (Exists (references (VStr post_id)) (tbl_status_updates (supabase w)))
   then
     with_supabase
       (set_rows t_status_updates
          ((λ r : dict,
              if decide (references (VStr post_id) r)
              then {[ "crowd_level" := VStr crowd;
                      "chips_available" := VStr chips;
                      "queue_length" := VStr queue;
                      "status_message" := VStr description ]} ∪ r
              else r) <$> tbl_status_updates (supabase w))
          (supabase w)) w
   else
     with_supabase
       (set_rows t_status_updates
          (tbl_status_updates (supabase w) ++
           [ {[ "id" := VStr (uuid_source w (uuid_drawn w));
                "resource_id" := VStr post_id;
                "crowd_level" := VStr crowd;
                "chips_available" := VStr chips;
                "queue_length" := VStr queue;
                "status_message" := VStr description ]} ])%list
          (supabase w)) (with_uuid_drawn (S (uuid_drawn w)) w)).
Proof.
  intros Hs Hd Hc Hh Hq. unfold update_post. rewrite (login_required_in _ _ _ Hs).
  rewrite bind_eq, (form_getitem_Some _ _ _ _ Hd).
  rewrite bind_eq, (form_getitem_Some _ _ _ _ Hc).
  rewrite bind_eq, (form_getitem_Some _ _ _ _ Hh).
  rewrite bind_eq, (form_getitem_Some _ _ _ _ Hq).
  rewrite bind_eq, existing_status_query_eq. unfold data.
  rewrite list_truthy_filter.
  destruct (bool_decide (Exists _ _)).
  - rewrite bind_eq, update_eq. reflexivity.
  - rewrite bind_eq. reflexivity.
Qed.

Lemma update_post_cases post_id request w :
  (∃ r, update_post post_id request w = (r, w) ∧
        r ≠ Ok (redirect (url_for "index"))) ∨
  (is_Some (session w !! "username") ∧
   ∃ description crowd chips queue,
     form request !! "description" = Some description ∧
     form request !! "crowd" = Some crowd ∧
     form request !! "chips" = Some chips ∧
     form request !! "queue" = Some queue).
Proof.
  unfold update_post.
  destruct (session w !! "username") as [u|] eqn:Hs;
    [|left; eexists; by rewrite login_required_out].
  assert (is_Some (session w !! "username")) as Hs' by (rewrite Hs; eauto).
  rewrite (login_required_in _ _ _ Hs').
  destruct (form request !! "description") eqn:Hd; form_step Hd;
    [|left; eexists; split; [reflexivity | discriminate]].
  destruct (form request !! "crowd") eqn:Hc; form_step Hc;
    [|left; eexists; split; [reflexivity | discriminate]].
  destruct (form request !! "chips") eqn:Hh; form_step Hh;
    [|left; eexists; split; [reflexivity | discriminate]].
  destruct (form request !! "queue") eqn:Hq; form_step Hq;
    [|left; eexists; split; [reflexivity | discriminate]].
  right. split; [done|]. by eexists _, _, _, _.
Qed.





Example update_post_insert_demo :
  tbl_status_updates
    (supabase (update_post "r1" update_request (demo_world alice_session)).2) =
  (tbl_status_updates demo_tables ++
   [ {[ "id" := VStr "uuid-a"; "resource_id" := VStr "r1";
        "crowd_level" := VStr "high"; "chips_available" := VStr "no";
        "queue_length" := VStr "12"; "status_message" := VStr "packed" ]} ])%list.
Proof. vm_compute. reflexivity. Qed.

Example update_post_update_demo :
  tbl_status_updates
    (supabase (update_post "r2" update_request (demo_world alice_session)).2) =
  [ {[ "id" := VStr "s1"; "resource_id" := VStr "r2";
       "crowd_level" := VStr "high"; "chips_available" := VStr "no";
       "queue_length" := VStr "12"; "status_message" := VStr "packed" ]} ].
Proof. vm_compute. reflexivity. Qed.

(** ** Creating a post *)

(** [create_post] in a signed-in session, on a POST with the five fields:
    the world it leaves. *)
Lemma create_post_eq request w title description crowd chips queue :
  is_Some (session w !! "username") →
  method request = "POST" →
  form request !! "title" = Some title →
  form request !! "description" = Some description →
  form request !! "crowd" = Some crowd →
  form request !! "chips" = Some chips →
  form request !! "queue" = Some queue →
  create_post request w =
  (Ok (redirect (url_for "index")),
   {| supabase :=
        {| tbl_resources :=
             (tbl_resources (supabase w) ++
              [ {[ "id" := VStr (uuid_source w (uuid_drawn w));
                   "name" := VStr title ]} ])%list;
           tbl_status_updates :=
             (tbl_status_updates (supabase w) ++
              [ {[ "id" := VStr (uuid_source w (S (uuid_drawn w)));
                   "resource_id" := VStr (uuid_source w (uuid_drawn w));
                   "status_message" := VStr description;
                   "crowd_level" := VStr crowd;
                   "chips_available" := VStr chips;
                   "queue_length" := VStr queue ]} ])%list;
           tbl_upvotes := tbl_upvotes (supabase w) |};
      auth_sign_in := auth_sign_in w; auth_sign_up := auth_sign_up w; session := session w;
      uuid_source := uuid_source w; uuid_drawn := S (S (uuid_drawn w)) |}).
Proof.
  intros Hs Hm Ht Hd Hc Hh Hq. unfold create_post.
  rewrite (login_required_in _ _ _ Hs), Hm, String.eqb_refl.
  form_step Ht. form_step Hd. form_step Hc. form_step Hh. form_step Hq.
  reflexivity.
Qed.

(** Every other request leaves the world as it was and does not reach the
    listing page. *)
Lemma create_post_cases request w :
  (∃ r, create_post request w = (r, w) ∧ r ≠ Ok (redirect (url_for "index"))) ∨
  (is_Some (session w !! "username") ∧ method request = "POST" ∧
   ∃ title description crowd chips queue,
     form request !! "title" = Some title ∧
     form request !! "description" = Some description ∧
     form request !! "crowd" = Some crowd ∧
     form request !! "chips" = Some chips ∧
     form request !! "queue" = Some queue).
Proof.
  unfold create_post.
  destruct (session w !! "username") as [u|] eqn:Hs;
    [|left; eexists; by rewrite login_required_out].
  assert (is_Some (session w !! "username")) as Hs' by (rewrite Hs; eauto).
  rewrite (login_required_in _ _ _ Hs').
  destruct (String.eqb (method request) "POST") eqn:Hm;
    [|left; eexists; split; [reflexivity | discriminate]].
  apply String.eqb_eq in Hm.
  destruct (form request !! "title") eqn:Ht; form_step Ht;
    [|left; eexists; split; [reflexivity | discriminate]].
  destruct (form request !! "description") eqn:Hd; form_step Hd;
    [|left; eexists; split; [reflexivity | discriminate]].
  destruct (form request !! "crowd") eqn:Hc; form_step Hc;
    [|left; eexists; split; [reflexivity | discriminate]].
  destruct (form request !! "chips") eqn:Hh; form_step Hh;
    [|left; eexists; split; [reflexivity | discriminate]].
  destruct (form request !! "queue") eqn:Hq; form_step Hq;
    [|left; eexists; split; [reflexivity | discriminate]].
  right. split; [done|]. split; [done|]. by eexists _, _, _, _, _.
Qed.

(** C6.  In a signed-in session, a POST to [create_post] with the five
    fields redirects to the listing page after appending one row to the
    resources table and one row to the status-update table, whose
    [resource_id] is the [id] of the new resource row; the upvotes table is
    as it was. *)
Theorem create_post_inserts_linked_rows request w
    title description crowd chips queue :
  is_Some (session w !! "username") →
  method request = "POST" →
  form request !! "title" = Some title →
  form request !! "description" = Some description →
  form request !! "crowd" = Some crowd →
  form request !! "chips" = Some chips →
  form request !! "queue" = Some queue →
  ∃ w' (resource status : dict),
    create_post request w = (Ok (redirect (url_for "index")), w') ∧
    tbl_resources (supabase w') = (tbl_resources (supabase w) ++ [resource])%list ∧
    tbl_status_updates (supabase w') =
      (tbl_status_updates (supabase w) ++ [status])%list ∧
    tbl_upvotes (supabase w') = tbl_upvotes (supabase w) ∧
    resource !! "id" = Some (VStr (uuid_source w (uuid_drawn w))) ∧
    resource !! "name" = Some (VStr title) ∧
    status !! "resource_id" = resource !! "id" ∧
    status !! "status_message" = Some (VStr description) ∧
    status !! "crowd_level" = Some (VStr crowd) ∧
    status !! "chips_available" = Some (VStr chips) ∧
    status !! "queue_length" = Some (VStr queue).
Proof.
  intros Hs Hm Ht Hd Hc Hh Hq. eexists _, _, _. split.
  { by apply (create_post_eq _ _ _ _ _ _ _ Hs Hm Ht Hd Hc Hh Hq). }
  cbn [supabase tbl_resources tbl_status_updates tbl_upvotes].
  repeat split; by simplify_map_eq.
Qed.

Lemma create_post_inserts_linked_rows_witness :
  ∃ w' (resource status : dict),
    create_post create_request (demo_world alice_session) =
      (Ok (redirect (url_for "index")), w') ∧
    tbl_resources (supabase w') = (tbl_resources demo_tables ++ [resource])%list ∧
    tbl_status_updates (supabase w') =
      (tbl_status_updates demo_tables ++ [status])%list ∧
    tbl_upvotes (supabase w') = tbl_upvotes demo_tables ∧
    resource !! "id" = Some (VStr "uuid-a") ∧
    resource !! "name" = Some (VStr "Pool") ∧
    status !! "resource_id" = resource !! "id" ∧
    status !! "status_message" = Some (VStr "open") ∧
    status !! "crowd_level" = Some (VStr "low") ∧
    status !! "chips_available" = Some (VStr "yes") ∧
    status !! "queue_length" = Some (VStr "0").
Proof.
  refine (create_post_inserts_linked_rows create_request
            (demo_world alice_session) "Pool" "open" "low" "yes" "0"
            _ _ _ _ _ _ _).
  - apply (bool_decide_unpack _). vm_compute. exact I.
  - reflexivity.
  - reflexivity.
  - reflexivity.
  - reflexivity.
  - reflexivity.
  - reflexivity.
Defined.

Example create_post_demo :
  tbl_status_updates (supabase (create_post create_request (demo_world alice_session)).2) =
  (tbl_status_updates demo_tables ++
   [ {[ "id" := VStr "uuid-b"; "resource_id" := VStr "uuid-a";
        "status_message" := VStr "open"; "crowd_level" := VStr "low";
        "chips_available" := VStr "yes"; "queue_length" := VStr "0" ]} ])%list.
Proof. vm_compute. reflexivity. Qed.

(** ** The columns written to the status-update table *)

Lemma writes_no_created_at_refl w : writes_no_created_at w w.
Proof.
  exists (tbl_status_updates (supabase w)), []. rewrite app_nil_r.
  split; [done|]. split; [by apply Forall_Forall2_diag, Forall_true | constructor].
Qed.

(** C10.  Whatever the request, [update_post] and [create_post] leave the
    status-update table as the rows it had, each with the [created_at] it
    had, followed by the rows inserted, and every inserted row has exactly
    the fields [id], [resource_id], [status_message], [crowd_level],
    [chips_available] and [queue_length]: none carries a [created_at]. *)
Theorem status_rows_written_without_created_at request w :
  (∀ post_id, writes_no_created_at w (update_post post_id request w).2) ∧
  writes_no_created_at w (create_post request w).2.
Proof.
  split.
  - intros post_id.
    destruct (update_post_cases post_id request w)
      as [(r & -> & _) | (Hs & d & c & h & q & Hd & Hc & Hh & Hq)];
      [apply writes_no_created_at_refl|].
    rewrite (update_post_eq _ _ _ _ _ _ _ Hs Hd Hc Hh Hq).
    cbn [snd]. destruct (bool_decide _).
    + eexists _, []. rewrite app_nil_r.
      cbn [tbl_status_updates supabase with_supabase set_rows].
      split; [reflexivity|]. split; [|constructor].
      apply Forall2_fmap_r, Forall_Forall2_diag, Forall_forall. intros s _.
      unfold compose. destruct (decide (references (VStr post_id) s)); [|done].
      apply lookup_union_r. by simplify_map_eq.
    + eexists _, [_].
      cbn [tbl_status_updates supabase with_supabase set_rows].
      split; [reflexivity|]. split; [by apply Forall_Forall2_diag, Forall_true|].
      constructor; [|constructor]. split; [|by simplify_map_eq].
      unfold inserted_status_fields. rewrite !dom_insert_L, dom_singleton_L.
      set_solver.
  - destruct (create_post_cases request w)
      as [(r & -> & _) | (Hs & Hm & t & d & c & h & q & Ht & Hd & Hc & Hh & Hq)];
      [apply writes_no_created_at_refl|].
    rewrite (create_post_eq _ _ _ _ _ _ _ Hs Hm Ht Hd Hc Hh Hq).
    eexists _, [_]. cbn [snd tbl_status_updates supabase].
    split; [reflexivity|]. split; [by apply Forall_Forall2_diag, Forall_true|].
    constructor; [|constructor]. split; [|by simplify_map_eq].
    unfold inserted_status_fields. rewrite !dom_insert_L, dom_singleton_L.
    set_solver.
Qed.

(** * Further properties *)

(** ** What a computation preserves *)

Section preserves.
Context (R : relation World) `{!PreOrder R}.

Lemma preserves_mret {A} (a : A) : preserves R (mret a).
Proof. intros w. reflexivity. Qed.

Lemma preserves_raise {A} (e : exn) : preserves R (raise e : M A).
Proof. intros w. reflexivity. Qed.

Lemma preserves_gets {A} (f : World → A) : preserves R (gets f).
Proof. intros w. reflexivity. Qed.

Lemma preserves_bind {A B} (m : M A) (f : A → M B) :
  preserves R m → (∀ a, preserves R (f a)) → preserves R (m ≫= f).
Proof.
  intros Hm Hf w. rewrite bind_eq. specialize (Hm w).
  destruct (m w) as [[a|e] w1]; simpl in *; [|exact Hm].
  etrans; [exact Hm | apply Hf].
Qed.

Lemma preserves_try_except {A} (body : M A) (handler : exn → M A) :
  preserves R body → (∀ e, preserves R (handler e)) →
  preserves R (try_except body handler).
Proof.
  intros Hm Hf w. rewrite try_except_eq. specialize (Hm w).
  destruct (body w) as [[a|e] w1]; simpl in *; [exact Hm|].
  etrans; [exact Hm | apply Hf].
Qed.

Lemma preserves_getitem d k : preserves R (getitem d k).
Proof. intros w. unfold getitem. destruct (d !! k); reflexivity. Qed.

Lemma preserves_form_getitem request k : preserves R (form_getitem request k).
Proof. intros w. unfold form_getitem. destruct (form request !! k); reflexivity. Qed.

Lemma preserves_status_field status k : preserves R (status_field status k).
Proof.
  unfold status_field. destruct status as [s|]; [|apply preserves_mret].
  destruct (dict_truthy s); [apply preserves_getitem | apply preserves_mret].
Qed.

Lemma preserves_mapM {A B} (f : A → M B) (l : list A) :
  (∀ x, preserves R (f x)) → preserves R (mapM f l).
Proof.
  intros Hf. induction l as [|x l IH]; simpl; [apply preserves_mret|].
  apply preserves_bind; [apply Hf|]. intros y.
  apply preserves_bind; [apply IH|]. intros ys. apply preserves_mret.
Qed.

(** A select leaves the world alone. *)
Lemma preserves_select q columns cnt :
  q_action q = Select columns cnt → preserves R (execute q).
Proof. intros Hq w. unfold execute. rewrite Hq. reflexivity. Qed.

Lemma preserves_auth_call (email password : string) :
  preserves R (sign_in_with_password email password) ∧
  preserves R (sign_up email password).
Proof.
  split; intros w.
  - unfold sign_in_with_password. destruct (auth_sign_in w email password); reflexivity.
  - unfold sign_up. destruct (auth_sign_up w email password); reflexivity.
Qed.

(** Writes to the tables and uuid draws are preserved by a relation that
    does not look at them. *)
Hypothesis R_tables : ∀ w db, R w (with_supabase db w).
Hypothesis R_uuid : ∀ w n, R w (with_uuid_drawn n w).

Lemma preserves_execute q : preserves R (execute q).
Proof.
  intros w. unfold execute.
  destruct (q_action q); simpl; [reflexivity | apply R_tables | apply R_tables].
Qed.

Lemma preserves_uuid4 : preserves R uuid4.
Proof. intros w. apply R_uuid. Qed.
End preserves.

#[global] Instance same_session_preorder : PreOrder same_session.
Proof. split; unfold same_session; [by intros w | intros w1 w2 w3 H1 H2; congruence]. Qed.

#[global] Instance no_admin_gained_preorder : PreOrder no_admin_gained.
Proof. split; unfold no_admin_gained; [by intros w | intros w1 w2 w3 H1 H2 H; auto]. Qed.

Create HintDb preserves discriminated.

#[global] Hint Resolve preserves_mret preserves_raise preserves_gets
  preserves_getitem preserves_form_getitem preserves_status_field : preserves.

Ltac preserves_step :=
  lazymatch goal with
  | |- PreOrder _ => apply _
  | |- preserves _ (_ ≫= _) => apply preserves_bind; [.. | intros ?]
  | |- preserves _ (try_except _ _) => apply preserves_try_except; [.. | intros ?]
  | |- preserves _ (mapM _ _) => apply preserves_mapM; [.. | intros ?]
  | |- preserves _ (if ?b then _ else _) => destruct b
  | |- preserves _ (match ?x with _ => _ end) => destruct x
  | |- preserves _ (sign_in_with_password _ _) => apply preserves_auth_call
  | |- preserves _ (sign_up _ _) => apply preserves_auth_call
  | |- preserves _ (login_required _ _) => unfold login_required
  | |- preserves _ (admin_required _ _) => unfold admin_required
  | |- _ =>
      first [ solve [eauto with preserves typeclass_instances]
            | progress cbv beta zeta ]
  end.

Ltac preserves_tac := repeat preserves_step.

(** ** Reading the listing *)

Lemma fetch_posts_preserves R `{!PreOrder R} : preserves R fetch_posts.
Proof.
  unfold fetch_posts, post_of. preserves_tac;
    (eapply preserves_select; [apply _ | reflexivity]).
Qed.

(** X1.  [fetch_posts] only reads: whatever the rows, and whether it returns
    or raises, it leaves the world as it found it. *)
Theorem fetch_posts_read_only w : (fetch_posts w).2 = w.
Proof. symmetry. apply (fetch_posts_preserves eq). Qed.
(** ** Who writes the session *)

Lemma same_session_execute q : preserves same_session (execute q).
Proof. apply preserves_execute; [apply _ | done]. Qed.

Lemma same_session_uuid4 : preserves same_session uuid4.
Proof. by apply preserves_uuid4. Qed.

Lemma no_admin_gained_execute q : preserves no_admin_gained (execute q).
Proof. apply preserves_execute; [apply _ | intros w db H; exact H]. Qed.

Lemma no_admin_gained_uuid4 : preserves no_admin_gained uuid4.
Proof. apply preserves_uuid4. intros w n H. exact H. Qed.

Lemma no_admin_gained_setitem k v :
  k ≠ "is_admin" ∨ truthy v = false →
  preserves no_admin_gained (session_setitem k v).
Proof.
  intros Hkv w H. unfold is_admin_session in *.
  change (session (session_setitem k v w).2) with (<[k:=v]> (session w)).
  unfold get in *. destruct (decide (k = "is_admin")) as [->|Hk].
  - rewrite lookup_insert_eq. simpl. by destruct Hkv.
  - by rewrite lookup_insert_ne.
Qed.

Lemma no_admin_gained_clear : preserves no_admin_gained (modify (with_session ∅)).
Proof. intros w _. reflexivity. Qed.

#[global] Hint Resolve same_session_execute same_session_uuid4
  no_admin_gained_execute no_admin_gained_uuid4 no_admin_gained_clear : preserves.

Ltac view_step :=
  lazymatch goal with
  | |- preserves _ fetch_posts => apply fetch_posts_preserves; apply _
  | |- preserves no_admin_gained (session_setitem _ _) =>
      apply no_admin_gained_setitem; first [ by left | by right ]
  | |- _ => preserves_step
  end.

(** X2.  Only [login], [register] and [logout] write the session: every
    other view, on every request and whatever it answers, leaves the session
    as it was. *)
Theorem session_kept_by_other_views e request w :
  writes_session e = false →
  session (view_function e request w).2 = session w.
Proof.
  intros He.
  assert (preserves same_session (view_function e request)) as H; [|apply H].
  destruct e; try discriminate He; simpl;
    unfold upvote, index, about, profile, admin, update_post, create_post;
    repeat view_step.
Qed.

Lemma session_kept_by_other_views_witness :
  session (view_function (ep_update_post "r1") update_request
             (demo_world alice_session)).2 = alice_session.
Proof.
  apply (session_kept_by_other_views (ep_update_post "r1") update_request
           (demo_world alice_session)).
  reflexivity.
Defined.

Lemma view_no_admin_gained e request :
  preserves no_admin_gained (view_function e request).
Proof.
  destruct e; simpl;
    unfold upvote, index, about, login, register, profile, admin, logout,
      update_post, create_post;
    repeat view_step.
Qed.

(** X3.  No view grants admin: from a session whose [is_admin] is not truthy,
    every view on every request leaves a session whose [is_admin] is not
    truthy. *)
Theorem no_view_grants_admin e request w :
  is_admin_session w = false →
  is_admin_session (view_function e request w).2 = false.
Proof. apply view_no_admin_gained. Qed.

Lemma no_view_grants_admin_witness :
  is_admin_session (view_function ep_login login_request (demo_world ∅)).2 = false.
Proof.
  apply (no_view_grants_admin ep_login login_request (demo_world ∅)).
  reflexivity.
Defined.

(** X4.  The admin page cannot be reached: starting from a session whose
    [is_admin] is not truthy, after any history of views and requests
    [admin] redirects to the listing. *)
Theorem admin_never_reached history request w :
  is_admin_session w = false →
  admin request (run_views history w) =
  (Ok (redirect (url_for "index")), run_views history w).
Proof.
  intros Hw.
  assert (is_admin_session (run_views history w) = false) as H.
  { revert w Hw. unfold run_views.
    induction history as [|[e r] history IH]; intros w Hw; [exact Hw|].
    simpl. apply IH. by apply view_no_admin_gained. }
  unfold admin, admin_required. rewrite bind_eq, gets_eq.
  unfold is_admin_session in H. by rewrite H.
Qed.

Lemma admin_never_reached_witness :
  let w' := run_views [(ep_register, login_request); (ep_login, login_request);
                       (ep_create_post, create_request)] (demo_world ∅) in
  admin upvote_request w' = (Ok (redirect (url_for "index")), w').
Proof.
  apply (admin_never_reached
           [(ep_register, login_request); (ep_login, login_request);
            (ep_create_post, create_request)] upvote_request (demo_world ∅)).
  reflexivity.
Defined.

(** ** Upvoting, further *)

Lemma matches_upvoted_by rid uid (l : list dict) :
  filter (matches [("resource_id", rid); ("user_id", uid)]) l =
  filter (upvoted_by rid uid) l.
Proof.
  apply list_filter_iff. intros r. unfold matches, upvoted_by.
  rewrite Forall_cons, Forall_singleton. reflexivity.
Qed.

(** [upvote] in a signed-in session. *)
Lemma upvote_eq request w :
  is_Some (session w !! "username") →
  upvote request w =
  if bool_decide (Exists (upvoted_by (get (json request) "resource_id")
                            (get (session w) "user_id"))
                    (tbl_upvotes (supabase w)))
  then (Ok (jsonify {[ "error" := VStr "Already upvoted" ]} 409), w)
  else (Ok (jsonify {[ "success" := VBool true;
                       "upvotes" :=
                         VInt (Z.of_nat (upvote_count (supabase (upvoted request w))
                                           (get (json request) "resource_id"))) ]}
              200),
        upvoted request w).
Proof.
  intros [u Hu]. unfold upvote. rewrite bind_eq, gets_eq.
  rewrite bool_decide_eq_false_2 by (rewrite Hu; discriminate).
  rewrite bind_eq, gets_eq. rewrite bind_eq, existing_upvote_query_eq.
  unfold data. rewrite matches_upvoted_by, list_truthy_filter.
  destruct (bool_decide _); [reflexivity|].
  rewrite bind_eq. unfold uuid4. rewrite bind_eq.
  change (execute (t_upvotes .> insert_ ?row) ?w0)
    with (Ok {| data := [row]; count := None |},
          with_supabase (set_rows t_upvotes (tbl_upvotes (supabase w0) ++ [row]) (supabase w0)) w0).
  cbv beta iota. rewrite bind_eq, upvotes_query_eq. reflexivity.
Qed.
Lemma upvoted_count request w rid :
  upvote_count (supabase (upvoted request w)) rid =
  if decide (rid = get (json request) "resource_id")
  then S (upvote_count (supabase w) rid)
  else upvote_count (supabase w) rid.
Proof.
  unfold upvote_count, upvoted.
  cbn [supabase with_supabase set_rows tbl_upvotes].
  rewrite filter_app, length_app, filter_cons, filter_nil.
  destruct (decide (rid = _)) as [->|Hne].
  - rewrite decide_True by (unfold references; by simplify_map_eq).
    simpl. lia.
  - rewrite decide_False; [simpl; lia|].
    unfold references. simplify_map_eq. congruence.
Qed.







(** ** Signed-out requests *)

#[global] Instance same_tables_preorder : PreOrder same_tables.
Proof. split; unfold same_tables; [by intros w | intros w1 w2 w3 H1 H2; congruence]. Qed.

Lemma same_tables_setitem k v : preserves same_tables (session_setitem k v).
Proof. intros w. reflexivity. Qed.

#[global] Hint Resolve same_tables_setitem : preserves.

(** X8.  No signed-out write: without [username] in the session, no view, on
    any request and whatever it answers, changes a table. *)
Theorem signed_out_views_keep_tables e request w :
  session w !! "username" = None →
  supabase (view_function e request w).2 = supabase w.
Proof.
  intros Hs.
  destruct e; simpl;
    try (unfold profile, logout, update_post, create_post;
         by rewrite login_required_out).
  - unfold upvote. rewrite bind_eq, gets_eq. by rewrite bool_decide_eq_true_2.
  - assert (preserves same_tables (index request)) as H; [|apply H].
    unfold index. repeat view_step.
  - reflexivity.
  - assert (preserves same_tables (login request)) as H; [|apply H].
    unfold login. repeat view_step.
  - assert (preserves same_tables (register request)) as H; [|apply H].
    unfold register. repeat view_step.
  - assert (preserves same_tables (admin request)) as H; [|apply H].
    unfold admin. repeat view_step.
Qed.

Lemma signed_out_views_keep_tables_witness :
  supabase (view_function ep_create_post create_request (demo_world ∅)).2 =
  demo_tables.
Proof.
  apply (signed_out_views_keep_tables ep_create_post create_request (demo_world ∅)).
  reflexivity.
Defined.
(** ** Signing in and out, further *)

(** X9.  After a sign-in that handed back a user, the profile page shows the
    name that was typed, and the admin page still redirects to the listing:
    [login] stores [is_admin = False]. *)
Theorem login_then_profile_and_admin request request' w username password u :
  method request = "POST" →
  form request !! "username" = Some username →
  form request !! "password" = Some password →
  auth_sign_in w username password = AuthReturns (AuthUserAttr (Some u)) →
  let w1 := (login request w).2 in
  profile request' w1 =
    (Ok (render_template "profile.html" [("username", CtxVal (VStr username))]), w1) ∧
  admin request' w1 = (Ok (redirect (url_for "index")), w1).
Proof.
  intros Hm Hu Hp Hs. cbv zeta.
  rewrite (login_post_eq _ _ _ _ Hm Hu Hp), Hs. cbn [signed_user snd].
  set (w1 := with_session _ w).
  assert (session w1 !! "username" = Some (VStr username)) as Hname.
  { unfold w1. cbn [session with_session]. by rewrite !lookup_insert. }
  assert (get (session w1) "is_admin" = VBool false) as Hadm.
  { unfold w1, get. cbn [session with_session]. by rewrite !lookup_insert. }
  split.
  - unfold profile. rewrite login_required_in by (rewrite Hname; eauto).
    rewrite bind_eq, gets_eq, bind_eq, (getitem_Some _ _ _ _ Hname). reflexivity.
  - unfold admin, admin_required. rewrite bind_eq, gets_eq, Hadm. reflexivity.
Qed.

Lemma login_then_profile_and_admin_witness :
  let w1 := (login login_request (demo_world ∅)).2 in
  profile upvote_request w1 =
    (Ok (render_template "profile.html"
           [("username", CtxVal (VStr "alice@example.org"))]), w1) ∧
  admin upvote_request w1 = (Ok (redirect (url_for "index")), w1).
Proof.
  apply (login_then_profile_and_admin login_request upvote_request (demo_world ∅)
           "alice@example.org" "secret" {| user_id := "alice" |});
    reflexivity.
Defined.

(** X10.  Signing out: in a signed-in session [logout] empties the whole
    session, touches no table and redirects to the login page; afterwards
    the profile page redirects to the login page and [upvote] answers 401. *)
Theorem logout_signs_out request request' w :
  is_Some (session w !! "username") →
  ∃ w',
    logout request w = (Ok (redirect (url_for "login")), w') ∧
    session w' = ∅ ∧
    supabase w' = supabase w ∧
    profile request' w' = (Ok (redirect (url_for "login")), w') ∧
    upvote request' w' =
      (Ok (jsonify {[ "error" := VStr "Login required" ]} 401), w').
Proof.
  intros Hs. exists (with_session ∅ w). unfold logout.
  rewrite (login_required_in _ _ _ Hs). split; [reflexivity|].
  split; [reflexivity|]. split; [reflexivity|]. split.
  - unfold profile. by rewrite login_required_out.
  - unfold upvote. rewrite bind_eq, gets_eq. by rewrite bool_decide_eq_true_2.
Qed.

Lemma logout_signs_out_witness :
  ∃ w',
    logout upvote_request (demo_world alice_session) =
      (Ok (redirect (url_for "login")), w') ∧
    session w' = ∅ ∧
    supabase w' = demo_tables ∧
    profile upvote_request w' = (Ok (redirect (url_for "login")), w') ∧
    upvote upvote_request w' =
      (Ok (jsonify {[ "error" := VStr "Login required" ]} 401), w').
Proof.
  refine (logout_signs_out upvote_request upvote_request (demo_world alice_session) _).
  apply (bool_decide_unpack _). vm_compute. exact I.
Defined.

(** X11.  When the backend turns a sign-up down, the register form comes back
    and the world is what it was; the error string is [Registration failed]
    when the backend answered without a user and [str(e)] when it raised
    [e]. *)
Theorem register_failure request w username password :
  method request = "POST" →
  form request !! "username" = Some username →
  form request !! "password" = Some password →
  (∀ u, auth_sign_up w username password ≠ AuthReturns (AuthUserAttr (Some u))) →
  register request w =
  (Ok (render_template "register.html"
         [("error",
           CtxVal (VStr match auth_sign_up w username password with
                        | AuthRaises msg => msg
                        | AuthReturns _ => "Registration failed"
                        end))]), w).
Proof.
  intros Hm Hu Hp Hs. rewrite (register_post_eq _ _ _ _ Hm Hu Hp).
  destruct (auth_sign_up w username password) as [msg|user]; [reflexivity|].
  by rewrite signed_user_None by (intros u ->; by destruct (Hs u)).
Qed.

(** X12.  A login or register POST without [username], or with it and without
    [password], is a bad request raised before the [try]: it is not shown
    inline, the backend is not asked and the world is what it was. *)
Theorem auth_forms_missing_field request w k :
  method request = "POST" →
  (form request !! "username" = None ∧ k = "username") ∨
  (is_Some (form request !! "username") ∧
   form request !! "password" = None ∧ k = "password") →
  login request w = (Raise (BadRequestKeyError k), w) ∧
  register request w = (Raise (BadRequestKeyError k), w).
Proof.
  intros Hm [[Hu ->]|([u Hu] & Hp & ->)]; unfold login, register;
    rewrite Hm, String.eqb_refl.
  - split; by form_step Hu.
  - split; form_step Hu; by form_step Hp.
Qed.

Lemma register_failure_witness :
  register login_request closed_world =
  (Ok (render_template "register.html"
         [("error", CtxVal (VStr "Registration failed"))]), closed_world).
Proof.
  refine (register_failure login_request closed_world
            "alice@example.org" "secret" _ _ _ _).
  - reflexivity.
  - reflexivity.
  - reflexivity.
  - intros u. vm_compute. discriminate.
Defined.

Lemma auth_forms_missing_field_witness :
  login nameless_request (demo_world ∅) =
    (Raise (BadRequestKeyError "password"), demo_world ∅) ∧
  register nameless_request (demo_world ∅) =
    (Raise (BadRequestKeyError "password"), demo_world ∅).
Proof.
  apply (auth_forms_missing_field nameless_request (demo_world ∅) "password").
  - reflexivity.
  - right. split; [|split; reflexivity].
    apply (bool_decide_unpack _). vm_compute. exact I.
Defined.

(** ** The listing, further *)

Lemma key_errors_mret {A} (a : A) : raises_key_errors_only (mret a).
Proof. intros w e w' H. discriminate H. Qed.

Lemma key_errors_bind {A B} (m : M A) (f : A → M B) :
  raises_key_errors_only m → (∀ a, raises_key_errors_only (f a)) →
  raises_key_errors_only (m ≫= f).
Proof.
  intros Hm Hf w e w' H. rewrite bind_eq in H.
  destruct (m w) as [[a|e1] w1] eqn:E.
  - by apply (Hf a w1 e w').
  - injection H as <- <-. by apply (Hm w e1 w1).
Qed.

Lemma key_errors_getitem d k : raises_key_errors_only (getitem d k).
Proof.
  intros w e w' H. unfold getitem in H.
  destruct (d !! k); [discriminate H|]. injection H as <- _. by exists k.
Qed.

Lemma key_errors_execute q : raises_key_errors_only (execute q).
Proof.
  intros w e w' H. unfold execute in H.
  destruct (q_action q); discriminate H.
Qed.

Lemma key_errors_status_field status k :
  raises_key_errors_only (status_field status k).
Proof.
  unfold status_field. destruct status as [s|]; [|apply key_errors_mret].
  destruct (dict_truthy s); [apply key_errors_getitem | apply key_errors_mret].
Qed.

Lemma key_errors_mapM {A B} (f : A → M B) (l : list A) :
  (∀ x, raises_key_errors_only (f x)) → raises_key_errors_only (mapM f l).
Proof.
  intros Hf. induction l as [|x l IH]; simpl; [apply key_errors_mret|].
  apply key_errors_bind; [apply Hf|]. intros y.
  apply key_errors_bind; [apply IH|]. intros ys. apply key_errors_mret.
Qed.

Lemma key_errors_post_of r : raises_key_errors_only (post_of r).
Proof.
  unfold post_of.
  repeat first [ apply key_errors_bind; [|intros ?]
               | apply key_errors_getitem | apply key_errors_execute
               | apply key_errors_status_field | apply key_errors_mret
               | progress cbv beta zeta ].
Qed.

Lemma key_errors_fetch_posts : raises_key_errors_only fetch_posts.
Proof.
  unfold fetch_posts.
  apply key_errors_bind; [apply key_errors_execute|]. intros resp.
  apply key_errors_bind; [|intros ?; apply key_errors_mret].
  apply key_errors_mapM, key_errors_post_of.
Qed.

(** A resource row without [id] or [name] stops [post_of], in any world. *)
Lemma post_of_raises (r : dict) w :
  r !! "id" = None ∨ r !! "name" = None → ∃ e, (post_of r w).1 = Raise e.
Proof.
  intros Hr. destruct (r !! "id") as [v|] eqn:Hid.
  - destruct Hr as [Hr|Hname]; [discriminate Hr|].
    unfold post_of.
    rewrite bind_eq, (getitem_Some _ _ _ _ Hid).
    rewrite bind_eq, status_query_eq.
    rewrite bind_eq, (getitem_Some _ _ _ _ Hid).
    rewrite bind_eq, upvotes_query_eq.
    rewrite bind_eq, (getitem_Some _ _ _ _ Hid).
    rewrite bind_eq. unfold getitem at 1. rewrite Hname. by eexists.
  - unfold post_of. rewrite bind_eq. unfold getitem at 1. rewrite Hid.
    by eexists.
Qed.

Lemma mapM_raises {A B} (f : A → M B) (l : list A) x w :
  x ∈ l → (∀ w, ∃ e, (f x w).1 = Raise e) → ∃ e, (mapM f l w).1 = Raise e.
Proof.
  intros Hx Hf. revert w. induction l as [|y l IH]; intros w.
  - by apply elem_of_nil in Hx.
  - simpl. rewrite bind_eq. destruct (f y w) as [[b|e] w1] eqn:E.
    + apply elem_of_cons in Hx as [->|Hx].
      * destruct (Hf w) as [e He]. rewrite E in He. discriminate He.
      * rewrite bind_eq. destruct (IH Hx w1) as [e He].
        destruct (mapM f l w1) as [[ys|e'] w2]; [discriminate He | by eexists].
    + by eexists.
Qed.

(** X13.  A resource row that lacks [id] or [name] breaks the whole listing:
    [fetch_posts] raises a [KeyError], for all the rows, and leaves the world
    as it was. *)
Theorem fetch_posts_key_error w (r : dict) :
  r ∈ tbl_resources (supabase w) →
  r !! "id" = None ∨ r !! "name" = None →
  ∃ k, fetch_posts w = (Raise (KeyError k), w).
Proof.
  intros Hr Hkeys.
  assert (∃ e, (fetch_posts w).1 = Raise e) as [e He].
  { unfold fetch_posts. rewrite bind_eq, resources_query_eq. unfold data.
    destruct (mapM_raises post_of _ r w Hr) as [e He];
      [intros w0; by apply post_of_raises|].
    rewrite bind_eq. destruct (mapM post_of _ w) as [[ps|e'] w1];
      [discriminate He | by eexists]. }
  pose proof (fetch_posts_preserves eq w) as Hw.
  destruct (fetch_posts w) as [res w1] eqn:E. simpl in He, Hw. subst res w1.
  destruct (key_errors_fetch_posts _ _ _ E) as [k ->]. by exists k.
Qed.

Lemma fetch_posts_key_error_witness :
  ∃ k, fetch_posts broken_world = (Raise (KeyError k), broken_world).
Proof.
  apply (fetch_posts_key_error broken_world {[ "id" := VStr "r2" ]}).
  - apply (bool_decide_unpack _). vm_compute. exact I.
  - right. reflexivity.
Defined.

(** X14.  Ties keep the order of the table: [fetch_posts] lists the posts of
    any one upvote count in the order of their resource rows. *)
Theorem fetch_posts_ties_in_table_order w :
  schema_ok (supabase w) →
  ∃ posts unsorted,
    fetch_posts w = (Ok posts, w) ∧
    Forall2 (λ (r : dict) p, r !! "id" = Some (Post.id p) ∧
                             r !! "name" = Some (Post.title p))
            (tbl_resources (supabase w)) unsorted ∧
    ∀ n, filter (λ p, Post.upvotes p = n) posts =
         filter (λ p, Post.upvotes p = n) unsorted.
Proof.
  intros Hok. pose proof Hok as [Hrs _].
  exists (sort_by_upvotes_desc (post_view (supabase w) <$> tbl_resources (supabase w))),
         (post_view (supabase w) <$> tbl_resources (supabase w)).
  split; [by apply fetch_posts_eq|]. split.
  - apply Forall2_fmap_r, Forall_Forall2_diag.
    eapply Forall_impl; [exact Hrs|]. intros r Hr. simpl.
    unfold has_keys, resource_columns in Hr.
    apply Forall_cons in Hr as [[v Hv] Hr]. apply Forall_cons in Hr as [[n Hn] _].
    unfold get. by rewrite Hv, Hn.
  - intros n. apply sort_by_upvotes_desc_stable.
Qed.

Lemma fetch_posts_ties_in_table_order_witness :
  ∃ posts unsorted,
    fetch_posts (demo_world ∅) = (Ok posts, demo_world ∅) ∧
    Forall2 (λ (r : dict) p, r !! "id" = Some (Post.id p) ∧
                             r !! "name" = Some (Post.title p))
            (tbl_resources (supabase (demo_world ∅))) unsorted ∧
    ∀ n, filter (λ p, Post.upvotes p = n) posts =
         filter (λ p, Post.upvotes p = n) unsorted.
Proof.
  apply (fetch_posts_ties_in_table_order (demo_world ∅)), demo_schema_ok.
Defined.

(** ** Writing posts, further *)



(** ** The listing after a write *)

Lemma schema_ok_same db db' :
  tbl_resources db' = tbl_resources db →
  tbl_status_updates db' = tbl_status_updates db →
  schema_ok db → schema_ok db'.
Proof. unfold schema_ok. by intros -> ->. Qed.

Lemma has_keys_union ks (changes r : dict) :
  has_keys ks r → has_keys ks (changes ∪ r).
Proof.
  unfold has_keys. intros H. eapply Forall_impl; [exact H|]. intros k [v Hv].
  destruct (changes !! k) as [c|] eqn:Hc.
  - exists c. by apply lookup_union_Some_l.
  - exists v. by rewrite lookup_union_r.
Qed.

Lemma same_tables_clear : preserves same_tables (modify (with_session ∅)).
Proof. intros w. reflexivity. Qed.

#[global] Hint Resolve same_tables_clear : preserves.

Lemma updated_schema_ok post_id request w description crowd chips queue :
  is_Some (session w !! "username") →
  form request !! "description" = Some description →
  form request !! "crowd" = Some crowd →
  form request !! "chips" = Some chips →
  form request !! "queue" = Some queue →
  schema_ok (supabase w) →
  schema_ok (supabase (update_post post_id request w).2).
Proof.
  intros Hs Hd Hc Hh Hq [Hrs Hst].
  rewrite (update_post_eq _ _ _ _ _ _ _ Hs Hd Hc Hh Hq). cbn [snd].
  destruct (bool_decide _);
    cbn [tbl_status_updates tbl_resources supabase with_supabase set_rows
         with_uuid_drawn];
    (split; [exact Hrs|]).
  - apply Forall_fmap. eapply Forall_impl; [exact Hst|]. intros s Hk. simpl.
    destruct (decide _); [by apply has_keys_union | exact Hk].
  - apply Forall_app. split; [exact Hst|]. apply Forall_singleton.
    unfold has_keys, status_columns. repeat constructor; by simplify_map_eq.
Qed.

Lemma created_schema_ok request w title description crowd chips queue :
  is_Some (session w !! "username") →
  method request = "POST" →
  form request !! "title" = Some title →
  form request !! "description" = Some description →
  form request !! "crowd" = Some crowd →
  form request !! "chips" = Some chips →
  form request !! "queue" = Some queue →
  schema_ok (supabase w) →
  schema_ok (supabase (create_post request w).2).
Proof.
  intros Hs Hm Ht Hd Hc Hh Hq [Hrs Hst].
  rewrite (create_post_eq _ _ _ _ _ _ _ Hs Hm Ht Hd Hc Hh Hq).
  cbn [snd supabase]. split; cbn [tbl_resources tbl_status_updates].
  - apply Forall_app. split; [exact Hrs|]. apply Forall_singleton.
    unfold has_keys, resource_columns. repeat constructor; by simplify_map_eq.
  - apply Forall_app. split; [exact Hst|]. apply Forall_singleton.
    unfold has_keys, status_columns. repeat constructor; by simplify_map_eq.
Qed.

(** X16.  The views keep the listing working: when every resource row has the
    columns [fetch_posts] subscripts and every status-update row has its
    four, so it is after any view on any request; the rows the views insert
    and the updates they make carry those columns. *)
Theorem views_keep_schema e request w :
  schema_ok (supabase w) →
  schema_ok (supabase (view_function e request w).2).
Proof.
  intros Hok.
  assert (∀ h : Handler, preserves same_tables (h request) →
            schema_ok (supabase (h request w).2)) as Hsame.
  { intros h Hh. by rewrite (Hh w). }
  destruct e; cbn [view_function].
  - destruct (session w !! "username") as [u|] eqn:Hu.
    + rewrite upvote_eq by (rewrite Hu; eauto).
      destruct (bool_decide _); [exact Hok|].
      by apply (schema_ok_same (supabase w)).
    + unfold upvote. rewrite bind_eq, gets_eq.
      by rewrite bool_decide_eq_true_2.
  - apply (Hsame index). unfold index. repeat view_step.
  - apply (Hsame about). unfold about. repeat view_step.
  - apply (Hsame login). unfold login. repeat view_step.
  - apply (Hsame register). unfold register. repeat view_step.
  - apply (Hsame profile). unfold profile. repeat view_step.
  - apply (Hsame admin). unfold admin. repeat view_step.
  - apply (Hsame logout). unfold logout. repeat view_step.
  - destruct (update_post_cases post_id request w)
      as [(r & -> & _) | (Hs & d & c & h & q & Hd & Hc & Hh & Hq)]; [exact Hok|].
    by apply (updated_schema_ok _ _ _ d c h q).
  - destruct (create_post_cases request w)
      as [(r & -> & _) | (Hs & Hm & t & d & c & h & q & Ht & Hd & Hc & Hh & Hq)];
      [exact Hok|].
    by apply (created_schema_ok _ _ t d c h q).
Qed.

Lemma views_keep_schema_witness :
  schema_ok (supabase (view_function ep_create_post create_request
                         (demo_world alice_session)).2).
Proof.
  apply (views_keep_schema ep_create_post create_request (demo_world alice_session)).
  apply demo_schema_ok.
Defined.
Lemma order_rows_singleton column desc (s : dict) :
  order_rows column desc [s] = [s].
Proof. reflexivity. Qed.

(** The row [fetch_posts] takes the status from is one of the resource's
    rows: what all of them share, it has. *)
Lemma latest_status_Forall db rid (P : dict → Prop) :
  Exists (references rid) (tbl_status_updates db) →
  (∀ s, s ∈ tbl_status_updates db → references rid s → P s) →
  ∃ s, latest_status db rid = Some s ∧ P s.
Proof.
  intros Hex HP. unfold latest_status.
  destruct (head _) as [s|] eqn:Hh.
  - exists s. split; [done|].
    apply head_Some_elem_of in Hh. unfold order_rows in Hh.
    rewrite stable_sort_perm in Hh.
    apply list_elem_of_filter in Hh as [? ?]. by apply HP.
  - apply head_None in Hh. apply Exists_exists in Hex as (s & Hs & Href).
    assert (s ∈ order_rows "created_at" true
                  (filter (references rid) (tbl_status_updates db))) as Hin.
    { unfold order_rows. rewrite stable_sort_perm.
      by apply list_elem_of_filter. }
    rewrite Hh in Hin. by apply elem_of_nil in Hin.
Qed.

Lemma post_view_with_status db (r s : dict) description crowd chips queue :
  latest_status db (get r "id") = Some s →
  s !! "status_message" = Some (VStr description) →
  s !! "crowd_level" = Some (VStr crowd) →
  s !! "chips_available" = Some (VStr chips) →
  s !! "queue_length" = Some (VStr queue) →
  post_view db r =
  post_with_status (get r "id") (get r "name") (get r "image_url")
    description crowd chips queue (Z.of_nat (upvote_count db (get r "id"))).
Proof.
  intros Hl Hm Hc Hh Hq. unfold post_view, post_with_status. rewrite Hl.
  unfold field_or_empty, get. by rewrite Hm, Hc, Hh, Hq.
Qed.

Lemma fetch_posts_lists w (r : dict) :
  schema_ok (supabase w) → r ∈ tbl_resources (supabase w) →
  ∃ posts, fetch_posts w = (Ok posts, w) ∧ post_view (supabase w) r ∈ posts.
Proof.
  intros Hok Hr. eexists. split; [by apply fetch_posts_eq|].
  unfold sort_by_upvotes_desc. rewrite stable_sort_perm.
  apply list_elem_of_fmap. by exists r.
Qed.

(** X17.  A status update shows in the listing: after [update_post] on the id
    of a resource row, from a signed-in session and a form with the four
    fields, [fetch_posts] lists that resource with the description, crowd,
    chips and queue that were submitted, whether a row was inserted or rows
    were updated, and with the upvotes it had. *)
Theorem update_post_then_listed post_id request w
    description crowd chips queue (r : dict) :
  is_Some (session w !! "username") →
  form request !! "description" = Some description →
  form request !! "crowd" = Some crowd →
  form request !! "chips" = Some chips →
  form request !! "queue" = Some queue →
  schema_ok (supabase w) →
  r ∈ tbl_resources (supabase w) →
  r !! "id" = Some (VStr post_id) →
  let w' := (update_post post_id request w).2 in
  ∃ posts,
    fetch_posts w' = (Ok posts, w') ∧
    post_with_status (VStr post_id) (get r "name") (get r "image_url")
      description crowd chips queue
      (Z.of_nat (upvote_count (supabase w) (VStr post_id))) ∈ posts.
Proof.
  intros Hs Hd Hc Hh Hq Hok Hr Hid w'.
  pose proof (updated_schema_ok post_id _ _ _ _ _ _ Hs Hd Hc Hh Hq Hok) as Hok'.
  fold w' in Hok'.
  assert (get r "id" = VStr post_id) as Hget by (unfold get; by rewrite Hid).
  assert (tbl_resources (supabase w') = tbl_resources (supabase w) ∧
          tbl_upvotes (supabase w') = tbl_upvotes (supabase w) ∧
          ∃ s, latest_status (supabase w') (VStr post_id) = Some s ∧
               s !! "status_message" = Some (VStr description) ∧
               s !! "crowd_level" = Some (VStr crowd) ∧
               s !! "chips_available" = Some (VStr chips) ∧
               s !! "queue_length" = Some (VStr queue))
    as (Hres & Hup & s & Hl & Hsm & Hsc & Hsh & Hsq).
  { unfold w'. rewrite (update_post_eq _ _ _ _ _ _ _ Hs Hd Hc Hh Hq). cbn [snd].
    destruct (bool_decide _) eqn:Hex.
    - apply bool_decide_eq_true_1 in Hex.
      split; [reflexivity|]. split; [reflexivity|].
      apply latest_status_Forall;
        cbn [tbl_status_updates supabase with_supabase set_rows].
      + apply Exists_exists in Hex as (s & Hin & Href).
        apply Exists_exists. eexists. split.
        * apply list_elem_of_fmap. exists s. split; [reflexivity | exact Hin].
        * rewrite decide_True by exact Href. unfold references in *.
          rewrite lookup_union_r by by simplify_map_eq. exact Href.
      + intros s' Hin' Href'.
        apply list_elem_of_fmap in Hin' as (s & -> & Hin).
        destruct (decide (references (VStr post_id) s)) as [Href|Href];
          [|by destruct Href].
        repeat split; apply lookup_union_Some_l; by simplify_map_eq.
    - apply bool_decide_eq_false_1 in Hex.
      split; [reflexivity|]. split; [reflexivity|].
      apply latest_status_Forall;
        cbn [tbl_status_updates supabase with_supabase set_rows with_uuid_drawn].
      + apply Exists_app. right. apply Exists_cons_hd.
        unfold references. by simplify_map_eq.
      + intros s' Hin' Href'. apply elem_of_app in Hin' as [Hin'|Hin'].
        * destruct Hex. apply Exists_exists. by exists s'.
        * apply list_elem_of_singleton in Hin' as ->.
          repeat split; by simplify_map_eq. }
  assert (r ∈ tbl_resources (supabase w')) as Hr' by by rewrite Hres.
  destruct (fetch_posts_lists w' r Hok' Hr') as (posts & Hf & Hin).
  exists posts. split; [exact Hf|].
  rewrite <- Hget in Hl.
  rewrite (post_view_with_status _ _ _ _ _ _ _ Hl Hsm Hsc Hsh Hsq) in Hin.
  unfold upvote_count in *. rewrite Hup, Hget in Hin. exact Hin.
Qed.

Lemma update_post_then_listed_witness :
  let w' := (update_post "r3" update_request (demo_world alice_session)).2 in
  ∃ posts,
    fetch_posts w' = (Ok posts, w') ∧
    post_with_status (VStr "r3") (VStr "Gym") VNone "packed" "high" "no" "12" 2
    ∈ posts.
Proof.
  refine (update_post_then_listed "r3" update_request (demo_world alice_session)
            "packed" "high" "no" "12" {[ "id" := VStr "r3"; "name" := VStr "Gym" ]}
            _ _ _ _ _ _ _ _).
  - apply (bool_decide_unpack _). vm_compute. exact I.
  - reflexivity.
  - reflexivity.
  - reflexivity.
  - reflexivity.
  - apply demo_schema_ok.
  - apply (bool_decide_unpack _). vm_compute. exact I.
  - reflexivity.
Defined.

(** X18.  A new post shows in the listing: after [create_post] from a
    signed-in session with the five fields, when the uuid drawn for the
    resource is not yet referenced by a status-update or upvote row,
    [fetch_posts] lists the new resource with the title and the four status
    fields that were submitted, no image and no upvotes. *)
Theorem create_post_then_listed request w title description crowd chips queue :
  is_Some (session w !! "username") →
  method request = "POST" →
  form request !! "title" = Some title →
  form request !! "description" = Some description →
  form request !! "crowd" = Some crowd →
  form request !! "chips" = Some chips →
  form request !! "queue" = Some queue →
  schema_ok (supabase w) →
  (∀ s, s ∈ tbl_status_updates (supabase w) →
        ¬ references (VStr (uuid_source w (uuid_drawn w))) s) →
  (∀ u, u ∈ tbl_upvotes (supabase w) →
        ¬ references (VStr (uuid_source w (uuid_drawn w))) u) →
  let w' := (create_post request w).2 in
  ∃ posts,
    fetch_posts w' = (Ok posts, w') ∧
    post_with_status (VStr (uuid_source w (uuid_drawn w))) (VStr title) VNone
      description crowd chips queue 0 ∈ posts.
Proof.
  intros Hs Hm Ht Hd Hc Hh Hq Hok Hst Hup w'.
  pose proof (created_schema_ok _ _ _ _ _ _ _ Hs Hm Ht Hd Hc Hh Hq Hok) as Hok'.
  fold w' in Hok'.
  set (rid := uuid_source w (uuid_drawn w)) in *.
  set (row := ({[ "id" := VStr rid; "name" := VStr title ]} : dict)).
  assert (row ∈ tbl_resources (supabase w') ∧
          post_view (supabase w') row =
          post_with_status (VStr rid) (VStr title) VNone
            description crowd chips queue 0) as [Hr' Hview].
  { unfold w'. rewrite (create_post_eq _ _ _ _ _ _ _ Hs Hm Ht Hd Hc Hh Hq).
    cbn [snd supabase]. fold rid. split.
    - cbn [tbl_resources]. apply elem_of_app. right. by left.
    - assert (get row "id" = VStr rid) as Hget
        by (unfold get, row; by simplify_map_eq).
      erewrite post_view_with_status.
      + rewrite Hget. unfold upvote_count. cbn [tbl_upvotes].
        rewrite (filter_none _ _ Hup). unfold get, row. by simplify_map_eq.
      + rewrite Hget. unfold latest_status. cbn [tbl_status_updates].
        rewrite filter_app, (filter_none _ _ Hst), app_nil_l.
        rewrite filter_cons_True by (unfold references; by simplify_map_eq).
        rewrite filter_nil, order_rows_singleton. reflexivity.
      + by simplify_map_eq.
      + by simplify_map_eq.
      + by simplify_map_eq.
      + by simplify_map_eq. }
  destruct (fetch_posts_lists w' row Hok' Hr') as (posts & Hf & Hin).
  exists posts. split; [exact Hf|]. by rewrite <- Hview.
Qed.

Lemma create_post_then_listed_witness :
  let w' := (create_post create_request (demo_world alice_session)).2 in
  ∃ posts,
    fetch_posts w' = (Ok posts, w') ∧
    post_with_status (VStr "uuid-a") (VStr "Pool") VNone "open" "low" "yes" "0" 0
    ∈ posts.
Proof.
  refine (create_post_then_listed create_request (demo_world alice_session)
            "Pool" "open" "low" "yes" "0" _ _ _ _ _ _ _ _ _ _).
  - apply (bool_decide_unpack _). vm_compute. exact I.
  - reflexivity.
  - reflexivity.
  - reflexivity.
  - reflexivity.
  - reflexivity.
  - reflexivity.
  - apply demo_schema_ok.
  - apply Forall_forall, (bool_decide_unpack _). vm_compute. exact I.
  - apply Forall_forall, (bool_decide_unpack _). vm_compute. exact I.
Defined.

(** X19.  An upvote shows in the listing: after a first upvote of a resource
    of the table from a signed-in session, [fetch_posts] lists that resource
    with one upvote more than it had. *)
Theorem upvote_then_listed request w (r : dict) :
  is_Some (session w !! "username") →
  Forall (λ row, ¬ upvoted_by (get (json request) "resource_id")
                     (get (session w) "user_id") row)
         (tbl_upvotes (supabase w)) →
  schema_ok (supabase w) →
  r ∈ tbl_resources (supabase w) →
  r !! "id" = Some (get (json request) "resource_id") →
  let w' := (upvote request w).2 in
  ∃ posts p,
    fetch_posts w' = (Ok posts, w') ∧
    p ∈ posts ∧
    Post.id p = get (json request) "resource_id" ∧
    Post.title p = get r "name" ∧
    Post.upvotes p =
      Z.of_nat (S (upvote_count (supabase w) (get (json request) "resource_id"))).
Proof.
  intros Hs Hnone Hok Hr Hid w'.
  assert (w' = upvoted request w) as Hw'.
  { unfold w'. rewrite (upvote_eq _ _ Hs).
    by rewrite bool_decide_eq_false_2 by by apply Forall_not_Exists. }
  assert (get r "id" = get (json request) "resource_id") as Hget
    by (unfold get at 1; by rewrite Hid).
  assert (schema_ok (supabase w')) as Hok'
    by (rewrite Hw'; by apply (schema_ok_same (supabase w))).
  assert (r ∈ tbl_resources (supabase w')) as Hr' by by rewrite Hw'.
  destruct (fetch_posts_lists w' r Hok' Hr') as (posts & Hf & Hin).
  exists posts, (post_view (supabase w') r).
  split; [exact Hf|]. split; [exact Hin|].
  unfold post_view. cbn [Post.id Post.title Post.upvotes].
  split; [exact Hget|]. split; [reflexivity|].
  by rewrite Hget, Hw', upvoted_count, decide_True.
Qed.

Lemma upvote_then_listed_witness :
  let w' := (upvote upvote_request (demo_world alice_session)).2 in
  ∃ posts p,
    fetch_posts w' = (Ok posts, w') ∧
    p ∈ posts ∧
    Post.id p = VStr "r1" ∧
    Post.title p = VStr "Canteen" ∧
    Post.upvotes p = 1%Z.
Proof.
  refine (upvote_then_listed upvote_request (demo_world alice_session)
            {[ "id" := VStr "r1"; "name" := VStr "Canteen" ]} _ _ _ _ _).
  - apply (bool_decide_unpack _). vm_compute. exact I.
  - apply (bool_decide_unpack _). vm_compute. exact I.
  - apply demo_schema_ok.
  - apply (bool_decide_unpack _). vm_compute. exact I.
  - reflexivity.
Defined.
